(** * Reviewer assignment service: model and verification

    A shallow embedding of [internal/domain/service/service.go] together
    with the data model of [internal/models/models.go] and the repository
    interface of [internal/storage/storage.go].

    - Go slices are lists, [map[string]int] and [map[string]bool] are
      [gmap string _] read with Go's zero-value default.
    - A Go [(value, error)] return is a [result]; service operations run in
      a small state monad over the [Service] struct (repository state and
      random generator state) and may end in [Done], [Fail] or [Panic].
    - The repository, [math/rand] and [sort.Slice] are interfaces of the
      environment; they are type classes here, with one executable
      instance each further down. *)

From stdpp Require Import gmap strings list sorting.
From Stdlib Require Import ZArith Lia.

#[local] Set Warnings "-clear-no-such-hyp".

Local Open Scope string_scope.
Local Open Scope list_scope.
Local Open Scope nat_scope.

(* ===================================================================== *)
(** ** models *)
(* ===================================================================== *)

Module models.

Record User := mkUser {
  UserID : string;
  Username : string;
  TeamName : string;
  IsActive : bool
}.

Definition PullRequestStatus := string.
Definition StatusOpen : PullRequestStatus := "OPEN".
Definition StatusMerged : PullRequestStatus := "MERGED".

(** [time.Time]; only stored and compared for equality. *)
Definition Time := Z.

Record PullRequest := mkPullRequest {
  PullRequestID : string;
  PullRequestName : string;
  AuthorID : string;
  Status : PullRequestStatus;
  AssignedReviewers : list string;
  CreatedAt : option Time;
  MergedAt : option Time
}.

Definition ErrorCode := string.
Definition ErrTeamExists : ErrorCode := "TEAM_EXISTS".
Definition ErrPRExists : ErrorCode := "PR_EXISTS".
Definition ErrPRMerged : ErrorCode := "PR_MERGED".
Definition ErrNotAssigned : ErrorCode := "NOT_ASSIGNED".
Definition ErrNoCandidate : ErrorCode := "NO_CANDIDATE".
Definition ErrNotFound : ErrorCode := "NOT_FOUND".

#[global] Instance User_eq_dec : EqDecision User.
Proof. solve_decision. Defined.

#[global] Instance PullRequest_eq_dec : EqDecision PullRequest.
Proof. solve_decision. Defined.

End models.
Import models.

(* ===================================================================== *)
(** ** Errors and results *)
(* ===================================================================== *)

(** A Go [error] value: either the service's own [*ServiceError] or any
    other error handed back by the repository. *)
Inductive error :=
  | ServiceError (Code : ErrorCode) (Message : string)
  | RepoError (msg : string).

(** [(A, error)] as returned by the repository. *)
Inductive result (A : Type) :=
  | Ok (a : A)
  | Err (e : error).
Arguments Ok {A} a.
Arguments Err {A} e.

(** What a call into the service ends in; [Panic] is a Go run-time panic
    (an index out of range). *)
Inductive outcome (A : Type) :=
  | Done (a : A)
  | Fail (e : error)
  | Panic.
Arguments Done {A} a.
Arguments Fail {A} e.
Arguments Panic {A}.

(* ===================================================================== *)
(** ** The environment: repository, random source, sort *)
(* ===================================================================== *)

Module storage.

(** [storage.Storage], restricted to the methods the service calls on
    the pull-request paths.  Reads are functions of the repository
    state; writes return the error (if any) and the next state.  A
    [nil, nil] answer of [GetUser]/[GetPullRequest] is [Ok None]. *)
Class Storage := {
  Repo : Type;
  GetUser : Repo → string → result (option User);
  GetUsersByTeam : Repo → string → result (list User);
  CreatePullRequest : Repo → PullRequest → option error * Repo;
  GetPullRequest : Repo → string → result (option PullRequest);
  UpdatePullRequest : Repo → PullRequest → option error * Repo;
  PullRequestExists : Repo → string → result bool;
  GetReviewCounts : Repo → list string → result (gmap string Z)
}.

End storage.

Module rand.

(** [*rand.Rand].  [Intn r n] is the drawn number and the generator's
    next state; for [0 < n] the number lies in [0, n) (for [n <= 0] Go
    panics, and no caller below passes such an [n]). *)
Class Source := {
  Rand : Type;
  Intn : Rand → nat → nat * Rand;
  Intn_bound : ∀ r n, 0 < n → (Intn r n).1 < n
}.

(** [candidates[i], candidates[j] = candidates[j], candidates[i]] *)
Definition swap {A} (l : list A) (i j : nat) : list A :=
  match l !! i, l !! j with
  | Some x, Some y => <[i:=y]> (<[j:=x]> l)
  | _, _ => l
  end.

(** The loop of [Rand.Shuffle]: for [i] from [n-1] down to [1], draw
    [j] in [0, i] and swap positions [i] and [j].  [k] counts the
    remaining iterations, [i = k]. *)
Fixpoint Shuffle_loop `{Source} {A} (k : nat) (r : Rand) (l : list A)
    : list A * Rand :=
  match k with
  | 0 => (l, r)
  | S k' =>
      let '(j, r') := Intn r (S k) in
      Shuffle_loop k' r' (swap l k j)
  end.

Definition Shuffle `{Source} {A} (r : Rand) (l : list A) : list A * Rand :=
  Shuffle_loop (length l - 1) r l.

End rand.

Module sort.

(** The order a [less] function must define for [sort.Slice] to sort:
    a strict weak ordering. *)
Record StrictWeakOrder {A} (less : A → A → bool) : Prop := {
  swo_asym : ∀ a b, less a b = true → less b a = false;
  swo_negtrans : ∀ a b c, less b a = false → less c b = false → less c a = false
}.

(** [sort.Slice]: the result is a rearrangement of the slice in which no
    later element is less than an earlier one.  The sort is not stable. *)
Class Sorter := {
  Slice : ∀ {A : Type}, (A → A → bool) → list A → list A;
  Slice_perm : ∀ A (less : A → A → bool) l, Slice less l ≡ₚ l;
  Slice_sorted : ∀ A (less : A → A → bool) l,
    StrictWeakOrder less →
    StronglySorted (λ a b, less b a = false) (Slice less l)
}.

End sort.

(* ===================================================================== *)
(** ** service *)
(* ===================================================================== *)

Module service.
Section service.
Context `{ST : storage.Storage} `{RS : rand.Source} `{SO : sort.Sorter}.

(** [type Service struct { repo; rng }] *)
Record Service := mkService {
  repo : storage.Repo;
  rng : rand.Rand
}.

Definition with_repo (s : Service) (r : storage.Repo) : Service :=
  mkService r (rng s).
Definition with_rng (s : Service) (g : rand.Rand) : Service :=
  mkService (repo s) g.

(** Methods on [*Service]. *)
Definition M (A : Type) : Type := Service → outcome A * Service.

Definition ret {A} (a : A) : M A := λ s, (Done a, s).
Definition fail {A} (e : error) : M A := λ s, (Fail e, s).
Definition bind {A B} (m : M A) (k : A → M B) : M B := λ s,
  match m s with
  | (Done a, s') => k a s'
  | (Fail e, s') => (Fail e, s')
  | (Panic, s') => (Panic, s')
  end.

(** A read of the repository: [v, err := s.repo.X(..); if err != nil
    { return nil, err }]. *)
Definition read {A} (q : storage.Repo → result A) : M A := λ s,
  match q (repo s) with
  | Ok a => (Done a, s)
  | Err e => (Fail e, s)
  end.

(** A write: [if err := s.repo.X(..); err != nil { return nil, err }]. *)
Definition write (w : storage.Repo → option error * storage.Repo) : M unit := λ s,
  match w (repo s) with
  | (None, r') => (Done tt, with_repo s r')
  | (Some e, r') => (Fail e, with_repo s r')
  end.

(** [l[s.rng.Intn(len(l))].UserID] *)
Definition pick (l : list User) : M string := λ s,
  let '(i, g) := rand.Intn (rng s) (length l) in
  match l !! i with
  | Some c => (Done (UserID c), with_rng s g)
  | None => (Panic, with_rng s g)
  end.

(** [counts[id]]: a missing key reads as 0. *)
Definition count_of (counts : gmap string Z) (id : string) : Z :=
  default 0%Z (counts !! id).

(** [randomSelection] *)
Definition randomSelection (candidates : list User) (maxCount : nat)
    : Service → list string * Service := λ s,
  if decide (length candidates ≤ maxCount) then
    (UserID <$> candidates, s)
  else
    let '(shuffled, g) := rand.Shuffle (rng s) candidates in
    (UserID <$> take maxCount shuffled, with_rng s g).

(** The comparison closure passed to [sort.Slice] in [assignReviewers]. *)
Definition less (counts : gmap string Z) (ci cj : User) : bool :=
  let countI := count_of counts (UserID ci) in
  let countJ := count_of counts (UserID cj) in
  if decide (countI ≠ countJ) then bool_decide (countI < countJ)%Z
  else String.ltb (UserID ci) (UserID cj).

(** The candidate loop of [assignReviewers]: the members with
    [member.IsActive && member.UserID != authorID], in team order. *)
Definition candidates_of (teamMembers : list User) (authorID : string)
    : list User :=
  filter (λ member, IsActive member = true ∧ UserID member ≠ authorID)
         teamMembers.

(** [assignReviewers] *)
Definition assignReviewers (teamMembers : list User) (authorID : string)
    : Service → list string * Service := λ s,
  let candidates := candidates_of teamMembers authorID in
  let candidateIDs := UserID <$> candidates in
  if decide (length candidates = 0) then ([], s)
  else
    match storage.GetReviewCounts (repo s) candidateIDs with
    | Err _ => randomSelection candidates 2 s
    | Ok counts =>
        let candidates := sort.Slice (less counts) candidates in
        (UserID <$> take 2 candidates, s)
    end.

(** The [excluded] map of [findReplacement]. *)
Definition excluded_of (authorID : string) (currentReviewers : list string)
    : gmap string bool :=
  foldl (λ excluded reviewerID, <[reviewerID:=true]> excluded)
        (<[authorID:=true]> ∅) currentReviewers.

(** [excluded[id]]: a missing key reads as false. *)
Definition is_excluded (excluded : gmap string bool) (id : string) : bool :=
  default false (excluded !! id).

(** One iteration of the minimum-load loop of [findReplacement], on the
    pair [(minCount, selected)]. *)
Definition min_step (counts : gmap string Z) (acc : Z * list User)
    (candidate : User) : Z * list User :=
  let '(minCount, selected) := acc in
  let count := count_of counts (UserID candidate) in
  if decide (minCount = (-1)%Z ∨ (count < minCount)%Z) then
    (count, [candidate])
  else if decide (count = minCount) then
    (minCount, selected ++ [candidate])
  else (minCount, selected).

Definition min_loop (counts : gmap string Z) (candidates : list User)
    : Z * list User :=
  foldl (min_step counts) ((-1)%Z, []) candidates.

Definition noCandidate : error :=
  ServiceError ErrNoCandidate "no active replacement candidate in team".

(** The candidate loop of [findReplacement]: the members with
    [member.IsActive && !excluded[member.UserID]], in team order. *)
Definition replacements_of (teamMembers : list User) (authorID : string)
    (currentReviewers : list string) : list User :=
  let excluded := excluded_of authorID currentReviewers in
  filter (λ member, IsActive member = true
                    ∧ is_excluded excluded (UserID member) = false)
         teamMembers.

(** [findReplacement] *)
Definition findReplacement (teamMembers : list User) (authorID : string)
    (currentReviewers : list string) : M string :=
  let candidates := replacements_of teamMembers authorID currentReviewers in
  if decide (length candidates = 0) then fail noCandidate
  else
    let candidateIDs := UserID <$> candidates in
    λ s,
    match storage.GetReviewCounts (repo s) candidateIDs with
    | Err _ => pick candidates s
    | Ok counts =>
        let selected := (min_loop counts candidates).2 in
        if decide (0 < length selected) then pick selected s
        else fail noCandidate s
    end.

#[local] Instance M_ret : MRet M := @ret.
#[local] Instance M_bind : MBind M := λ A B k m, bind m k.

(** A method that returns no error. *)
Definition total {A} (f : Service → A * Service) : M A := λ s,
  let '(a, s') := f s in (Done a, s').

(** [CreatePullRequest]; [now] is the reading of [time.Now()]. *)
Definition CreatePullRequest (now : Time) (prID prName authorID : string)
    : M PullRequest :=
  exists_ ← read (λ r, storage.PullRequestExists r prID);
  if (exists_ : bool) then
    fail (ServiceError ErrPRExists "PR id already exists")
  else
    author ← read (λ r, storage.GetUser r authorID);
    match author with
    | None => fail (ServiceError ErrNotFound "author not found")
    | Some author =>
        teamMembers ← read (λ r, storage.GetUsersByTeam r (TeamName author));
        reviewers ← total (assignReviewers teamMembers authorID);
        let pr := {|
          PullRequestID := prID;
          PullRequestName := prName;
          AuthorID := authorID;
          Status := StatusOpen;
          AssignedReviewers := reviewers;
          CreatedAt := Some now;
          MergedAt := None
        |} in
        write (λ r, storage.CreatePullRequest r pr);;
        mret pr
    end.

(** [pr.Status = models.StatusMerged; pr.MergedAt = &now] *)
Definition set_merged (pr : PullRequest) (now : Time) : PullRequest := {|
  PullRequestID := PullRequestID pr;
  PullRequestName := PullRequestName pr;
  AuthorID := AuthorID pr;
  Status := StatusMerged;
  AssignedReviewers := AssignedReviewers pr;
  CreatedAt := CreatedAt pr;
  MergedAt := Some now
|}.

(** [MergePullRequest]; [now] is the reading of [time.Now()]. *)
Definition MergePullRequest (now : Time) (prID : string) : M PullRequest :=
  pr ← read (λ r, storage.GetPullRequest r prID);
  match pr with
  | None => fail (ServiceError ErrNotFound "PR not found")
  | Some pr =>
      if decide (Status pr = StatusMerged) then mret pr
      else
        let pr := set_merged pr now in
        write (λ r, storage.UpdatePullRequest r pr);;
        mret pr
  end.

(** [pr.AssignedReviewers[reviewerIndex] = newReviewerID] *)
Definition set_reviewer (pr : PullRequest) (reviewerIndex : nat)
    (newReviewerID : string) : PullRequest := {|
  PullRequestID := PullRequestID pr;
  PullRequestName := PullRequestName pr;
  AuthorID := AuthorID pr;
  Status := Status pr;
  AssignedReviewers := <[reviewerIndex:=newReviewerID]> (AssignedReviewers pr);
  CreatedAt := CreatedAt pr;
  MergedAt := MergedAt pr
|}.

(** The search loop of [ReassignReviewer]: the first index holding
    [oldReviewerID]; [None] is the loop leaving [reviewerIndex] at -1. *)
Definition reviewer_index (oldReviewerID : string) (reviewers : list string)
    : option nat :=
  fst <$> list_find (λ reviewerID, reviewerID = oldReviewerID) reviewers.

(** [ReassignReviewer] *)
Definition ReassignReviewer (prID oldReviewerID : string)
    : M (PullRequest * string) :=
  pr ← read (λ r, storage.GetPullRequest r prID);
  match pr with
  | None => fail (ServiceError ErrNotFound "PR not found")
  | Some pr =>
      if decide (Status pr = StatusMerged) then
        fail (ServiceError ErrPRMerged "cannot reassign on merged PR")
      else
        match reviewer_index oldReviewerID (AssignedReviewers pr) with
        | None =>
            fail (ServiceError ErrNotAssigned
                    "reviewer is not assigned to this PR")
        | Some reviewerIndex =>
            oldReviewer ← read (λ r, storage.GetUser r oldReviewerID);
            match oldReviewer with
            | None => fail (ServiceError ErrNotFound "old reviewer not found")
            | Some oldReviewer =>
                teamMembers ←
                  read (λ r, storage.GetUsersByTeam r (TeamName oldReviewer));
                newReviewerID ←
                  findReplacement teamMembers (AuthorID pr)
                                  (AssignedReviewers pr);
                let pr := set_reviewer pr reviewerIndex newReviewerID in
                write (λ r, storage.UpdatePullRequest r pr);;
                mret (pr, newReviewerID)
            end
        end
  end.

End service.
End service.

(* ===================================================================== *)
(** ** Vocabulary of the statements *)
(* ===================================================================== *)

(** The order of the spec on user ids: review load ascending, user id
    ascending among equal loads. *)
Definition load_le (counts : gmap string Z) (x y : string) : Prop :=
  (service.count_of counts x < service.count_of counts y)%Z
  ∨ (service.count_of counts x = service.count_of counts y ∧ String.le x y).

(** A pull request's reviewer list is well formed. *)
Definition reviewers_ok (pr : PullRequest) : Prop :=
  (AuthorID pr ∉ AssignedReviewers pr)
  ∧ NoDup (AssignedReviewers pr)
  ∧ length (AssignedReviewers pr) ≤ 2.

(** A call ended with a [ServiceError] of the given code. *)
Definition fails_with {A} (code : ErrorCode) (o : outcome A) : Prop :=
  ∃ msg, o = Fail (ServiceError code msg).

#[global] Instance load_le_dec counts : RelDecision (load_le counts).
Proof. intros x y. unfold load_le. apply _. Defined.

(** Unfold the monadic plumbing of a service method. *)
Ltac unfold_service :=
  unfold service.CreatePullRequest, service.MergePullRequest,
    service.ReassignReviewer, mbind, service.M_bind, service.bind,
    service.read, service.write, service.total, service.fail,
    mret, service.M_ret, service.ret in *.

(* ===================================================================== *)
(** ** An executable environment *)
(* ===================================================================== *)

(** An in-memory repository that answers the queries of [PostgresStorage]
    on two tables held as lists of rows. *)
Module persistence.

Record DB := mkDB {
  users : list User;
  pull_requests : list PullRequest;
  (** names of the methods whose next query returns a database error *)
  failing : list string
}.

Definition query (db : DB) (name : string) {A} (a : A) : result A :=
  if decide (name ∈ failing db) then Err (RepoError name) else Ok a.

Definition exec (db : DB) (name : string) (db' : DB) : option error * DB :=
  if decide (name ∈ failing db) then (Some (RepoError name), db)
  else (None, db').

(** [SELECT .. FROM users WHERE user_id = $1] *)
Definition GetUser (db : DB) (userID : string) : result (option User) :=
  query db "GetUser"
    (head (filter (λ u, UserID u = userID) (users db))).

(** [SELECT .. FROM users WHERE team_name = $1] *)
Definition GetUsersByTeam (db : DB) (teamName : string) : result (list User) :=
  query db "GetUsersByTeam"
    (filter (λ u, TeamName u = teamName) (users db)).

(** [SELECT .. FROM pull_requests WHERE pull_request_id = $1] *)
Definition GetPullRequest (db : DB) (prID : string)
    : result (option PullRequest) :=
  query db "GetPullRequest"
    (head (filter (λ pr, PullRequestID pr = prID) (pull_requests db))).

(** [SELECT EXISTS(SELECT 1 FROM pull_requests WHERE pull_request_id = $1)] *)
Definition PullRequestExists (db : DB) (prID : string) : result bool :=
  query db "PullRequestExists"
    (bool_decide (prID ∈ PullRequestID <$> pull_requests db)).

(** The row that [INSERT INTO pull_requests (pull_request_id,
    pull_request_name, author_id, status, assigned_reviewers, created_at)]
    leaves: the statement names no [merged_at] column, so that column is
    NULL whatever merge time [pr] carries. [created_at] holds the value
    handed in, [Time] standing for the instant at the column's
    precision. *)
Definition inserted (pr : PullRequest) : PullRequest := {|
  PullRequestID := PullRequestID pr;
  PullRequestName := PullRequestName pr;
  AuthorID := AuthorID pr;
  Status := Status pr;
  AssignedReviewers := AssignedReviewers pr;
  CreatedAt := CreatedAt pr;
  MergedAt := None
|}.

(** [CreatePullRequest]; the primary key rejects a second row with the
    same id. *)
Definition CreatePullRequest (db : DB) (pr : PullRequest)
    : option error * DB :=
  if decide (PullRequestID pr ∈ PullRequestID <$> pull_requests db) then
    (Some (RepoError "duplicate key"), db)
  else
    exec db "CreatePullRequest"
      (mkDB (users db) (pull_requests db ++ [inserted pr]) (failing db)).

(** [UPDATE pull_requests SET pull_request_name, author_id, status,
    assigned_reviewers, merged_at WHERE pull_request_id = $6] *)
Definition update_row (pr row : PullRequest) : PullRequest :=
  if decide (PullRequestID row = PullRequestID pr) then {|
    PullRequestID := PullRequestID row;
    PullRequestName := PullRequestName pr;
    AuthorID := AuthorID pr;
    Status := Status pr;
    AssignedReviewers := AssignedReviewers pr;
    CreatedAt := CreatedAt row;
    MergedAt := MergedAt pr
  |} else row.

Definition UpdatePullRequest (db : DB) (pr : PullRequest)
    : option error * DB :=
  exec db "UpdatePullRequest"
    (mkDB (users db) (update_row pr <$> pull_requests db) (failing db)).

(** [counts[userID]++] for every reviewer of every OPEN row. *)
Definition count_row (counts : gmap string Z) (row : PullRequest)
    : gmap string Z :=
  if decide (Status row = StatusOpen) then
    foldl (λ c id, <[id := (default 0 (c !! id) + 1)%Z]> c)
          counts (AssignedReviewers row)
  else counts.

(** [GetReviewCounts]: the grouped count over OPEN rows, then a zero for
    every requested id that has no row. *)
Definition GetReviewCounts (db : DB) (userIDs : list string)
    : result (gmap string Z) :=
  if decide (length userIDs = 0) then Ok ∅
  else
    query db "GetReviewCounts"
      (let counts := foldl count_row ∅ (pull_requests db) in
       foldl (λ c userID,
                match c !! userID with
                | Some _ => c
                | None => <[userID := 0%Z]> c
                end)
             counts userIDs).

#[global] Instance PostgresStorage : storage.Storage := {|
  storage.Repo := DB;
  storage.GetUser := GetUser;
  storage.GetUsersByTeam := GetUsersByTeam;
  storage.CreatePullRequest := CreatePullRequest;
  storage.GetPullRequest := GetPullRequest;
  storage.UpdatePullRequest := UpdatePullRequest;
  storage.PullRequestExists := PullRequestExists;
  storage.GetReviewCounts := GetReviewCounts
|}.

End persistence.

(** A linear congruential generator as the random source. *)
Module lcg.

Definition next (r : N) : N := ((r * 1103515245 + 12345) mod 2147483648)%N.

Definition Intn (r : N) (n : nat) : nat * N :=
  (N.to_nat (r mod N.of_nat n), next r).

#[global] Program Instance source : rand.Source := {|
  rand.Rand := N;
  rand.Intn := Intn
|}.
Next Obligation.
  intros r n Hn. unfold Intn; simpl.
  assert (r mod N.of_nat n < N.of_nat n)%N by (apply N.mod_lt; lia).
  lia.
Qed.

End lcg.

(** Merge sort as [sort.Slice]. *)
Module msort.

Definition not_after {A} (less : A → A → bool) : relation A :=
  λ a b, less b a = false.

#[global] Instance not_after_dec {A} (less : A → A → bool) :
  RelDecision (not_after less).
Proof. intros a b. unfold not_after. apply _. Defined.

Definition Slice {A} (less : A → A → bool) (l : list A) : list A :=
  merge_sort (not_after less) l.

#[global] Program Instance sorter : sort.Sorter := {|
  sort.Slice := @Slice
|}.
Next Obligation.
  intros A less l. apply merge_sort_Permutation.
Qed.
Next Obligation.
  intros A less l [Hasym Hneg].
  assert (Transitive (not_after less)).
  { intros a b c Hab Hbc. unfold not_after in *. eauto. }
  assert (Total (not_after less)).
  { intros a b. unfold not_after.
    destruct (less b a) eqn:E; [right; by apply Hasym | by left]. }
  apply (StronglySorted_merge_sort (not_after less)).
Qed.

End msort.

(** Sample data: two teams and five pull requests. *)
Module sample.
Import service.

Definition alice := mkUser "u1" "Alice" "backend" true.
Definition bob := mkUser "u2" "Bob" "backend" true.
Definition carol := mkUser "u3" "Carol" "backend" true.
Definition dave := mkUser "u4" "Dave" "backend" true.
Definition erin := mkUser "u5" "Erin" "backend" false.
Definition frank := mkUser "u6" "Frank" "ops" true.
Definition grace := mkUser "u7" "Grace" "ops" true.

Definition all_users : list User :=
  [alice; bob; carol; dave; erin; frank; grace].

(** the rows of team [backend] *)
Definition team : list User := [alice; bob; carol; dave; erin].

Definition pr1 : PullRequest :=
  mkPullRequest "pr-1" "Add search" "u1" StatusOpen ["u2"; "u3"]
                (Some 100%Z) None.
Definition pr2 : PullRequest :=
  mkPullRequest "pr-2" "Fix login" "u4" StatusOpen ["u2"]
                (Some 110%Z) None.
Definition pr3 : PullRequest :=
  mkPullRequest "pr-3" "Old work" "u1" StatusMerged ["u3"; "u4"]
                (Some 50%Z) (Some 60%Z).
(** reviewed by an id that is no user *)
Definition pr4 : PullRequest :=
  mkPullRequest "pr-4" "Imported" "u1" StatusOpen ["u9"]
                (Some 120%Z) None.
(** the whole team [ops] is on this one *)
Definition pr5 : PullRequest :=
  mkPullRequest "pr-5" "Rotate keys" "u6" StatusOpen ["u7"]
                (Some 130%Z) None.

Definition all_prs : list PullRequest := [pr1; pr2; pr3; pr4; pr5].

Definition db0 : persistence.DB := persistence.mkDB all_users all_prs [].

(** the same database with the review-count query failing *)
Definition db_nocounts : persistence.DB :=
  persistence.mkDB all_users all_prs ["GetReviewCounts"].


(** a team of the author and an inactive member *)
Definition db_small : persistence.DB :=
  persistence.mkDB [alice; erin] [] [].

Definition s0 : Service := mkService db0 7%N.
Definition s_small : Service := mkService db_small 7%N.

(** [pr1] after a merge at time 200 *)
Definition pr1_merged : PullRequest :=
  mkPullRequest "pr-1" "Add search" "u1" StatusMerged ["u2"; "u3"]
                (Some 100%Z) (Some 200%Z).
Definition s0_merged : Service :=
  mkService (persistence.mkDB all_users [pr1_merged; pr2; pr3; pr4; pr5] [])
            7%N.

(** [pr1] after [u2] was replaced by [u4] *)
Definition pr1_reassigned : PullRequest :=
  mkPullRequest "pr-1" "Add search" "u1" StatusOpen ["u4"; "u3"]
                (Some 100%Z) None.
Definition s0_reassigned : Service :=
  mkService
    (persistence.mkDB all_users [pr1_reassigned; pr2; pr3; pr4; pr5] [])
    (lcg.next 7%N).

(** a new pull request by [u1] *)
Definition pr9 : PullRequest :=
  mkPullRequest "pr-9" "New work" "u1" StatusOpen ["u4"; "u3"]
                (Some 200%Z) None.

(** the review counts the repository reports for the given ids *)
Definition counts_for (ids : list string) : gmap string Z :=
  match persistence.GetReviewCounts db0 ids with
  | Ok counts => counts
  | Err _ => ∅
  end.

End sample.

(* ===================================================================== *)
(** ** The rest of the code: review load, answers, configuration, teams *)
(* ===================================================================== *)

(** The reviewer ids of the OPEN rows, one entry per listing. *)
Definition open_reviewers (db : persistence.DB) : list string :=
  concat (AssignedReviewers <$>
            filter (λ pr, Status pr = StatusOpen) (persistence.pull_requests db)).

(** The review load of a user: how often the OPEN rows list the id. *)
Definition open_reviews (db : persistence.DB) (id : string) : nat :=
  length (filter (λ r, r = id) (open_reviewers db)).

(** The map [m] holds, for every id, how often the list [L] names it,
    and nothing for an id that [L] does not name. *)
Definition counts_list (m : gmap string Z) (L : list string) : Prop :=
  ∀ id, m !! id = if decide (id ∈ L)
                  then Some (Z.of_nat (length (filter (λ r, r = id) L)))
                  else None.


(** [handlers.handleServiceError] with the [net/http] status codes. *)
Module handlers.

Definition StatusBadRequest : nat := 400.
Definition StatusNotFound : nat := 404.
Definition StatusConflict : nat := 409.
Definition StatusInternalServerError : nat := 500.

(** [models.ErrorDetail] *)
Record ErrorDetail := mkErrorDetail {
  Code : ErrorCode;
  Message : string
}.

(** What [writeError] sends: the status line and the [ErrorResponse]
    body. *)
Record Response := mkResponse {
  status : nat;
  Error : ErrorDetail
}.

Definition writeError (status : nat) (code : ErrorCode) (message : string)
    : Response :=
  mkResponse status (mkErrorDetail code message).

(** [handleServiceError]: the type switch on [*service.ServiceError] and
    the switch on its code. *)
Definition handleServiceError (err : error) : Response :=
  match err with
  | ServiceError code message =>
      let status :=
        if decide (code = ErrTeamExists) then StatusBadRequest
        else if decide (code ∈ [ErrPRExists; ErrPRMerged; ErrNotAssigned;
                                ErrNoCandidate]) then StatusConflict
        else if decide (code = ErrNotFound) then StatusNotFound
        else StatusInternalServerError in
      writeError status code message
  | RepoError _ =>
      writeError StatusInternalServerError ErrNotFound "internal server error"
  end.

End handlers.

(** [config.getEnv] and [config.Load] over the process environment as
    [os.Getenv] sees it after [godotenv.Load]. *)
Module config.

Record ServerConfig := mkServerConfig { Port : string }.

Record DatabaseConfig := mkDatabaseConfig {
  Host : string;
  DBPort : string;
  User : string;
  Password : string;
  Name : string;
  SSLMode : string
}.

Record Config := mkConfig {
  Server : ServerConfig;
  Database : DatabaseConfig
}.

(** [os.Getenv]: the value, or the empty string for an unset variable. *)
Definition Getenv (env : gmap string string) (key : string) : string :=
  default "" (env !! key).

Definition getEnv (env : gmap string string) (key defaultValue : string)
    : string :=
  let value := Getenv env key in
  if decide (value ≠ "") then value else defaultValue.

Definition Load (env : gmap string string) : Config := {|
  Server := {| Port := getEnv env "PORT" "8080" |};
  Database := {|
    Host := getEnv env "DB_HOST" "localhost";
    DBPort := getEnv env "DB_PORT" "5432";
    User := getEnv env "DB_USER" "postgres";
    Password := getEnv env "DB_PASSWORD" "postgres";
    Name := getEnv env "DB_NAME" "pr_reviewer";
    SSLMode := getEnv env "DB_SSLMODE" "disable"
  |}
|}.

End config.

(** [models.TeamMember] and [models.Team] *)
Module team.

Record TeamMember := mkTeamMember {
  UserID : string;
  Username : string;
  IsActive : bool
}.

Record Team := mkTeam {
  TeamName : string;
  Members : list TeamMember
}.

End team.

(** [models.PullRequestShort] *)
Module short.

Record PullRequestShort := mkPullRequestShort {
  PullRequestID : string;
  PullRequestName : string;
  AuthorID : string;
  Status : PullRequestStatus
}.

End short.

Module team_storage.

(** The methods of [storage.Storage] that the team and user paths of the
    service call, over the same repository state. *)
Class TeamStorage `{ST : storage.Storage} := {
  CreateTeam : storage.Repo → team.Team → option error * storage.Repo;
  GetTeam : storage.Repo → string → result (option team.Team);
  TeamExists : storage.Repo → string → result bool;
  UpdateUser : storage.Repo → User → option error * storage.Repo;
  GetPullRequestsByReviewer :
    storage.Repo → string → result (list short.PullRequestShort)
}.

End team_storage.

(** The team and user methods of [*Service]. *)
Module team_service.
Section team_service.
Context `{ST : storage.Storage} `{TS : !team_storage.TeamStorage}
  `{RS : rand.Source}.
Import service.

#[local] Existing Instance service.M_ret.
#[local] Existing Instance service.M_bind.

(** [CreateTeam]; the value is what [s.repo.GetTeam] returns, a nil team
    included. *)
Definition CreateTeam (t : team.Team) : M (option team.Team) :=
  exists_ ← read (λ r, team_storage.TeamExists r (team.TeamName t));
  if (exists_ : bool) then
    fail (ServiceError ErrTeamExists "team_name already exists")
  else
    write (λ r, team_storage.CreateTeam r t);;
    read (λ r, team_storage.GetTeam r (team.TeamName t)).

(** [GetTeam] *)
Definition GetTeam (teamName : string) : M team.Team :=
  t ← read (λ r, team_storage.GetTeam r teamName);
  match t with
  | None => fail (ServiceError ErrNotFound "team not found")
  | Some t => mret t
  end.

(** [user.IsActive = isActive] *)
Definition set_active (user : User) (isActive : bool) : User := {|
  UserID := UserID user;
  Username := Username user;
  TeamName := TeamName user;
  IsActive := isActive
|}.

(** [SetUserActive] *)
Definition SetUserActive (userID : string) (isActive : bool) : M User :=
  user ← read (λ r, storage.GetUser r userID);
  match user with
  | None => fail (ServiceError ErrNotFound "user not found")
  | Some user =>
      let user := set_active user isActive in
      write (λ r, team_storage.UpdateUser r user);;
      mret user
  end.

(** [GetUserReviews] *)
Definition GetUserReviews (userID : string)
    : M (list short.PullRequestShort) :=
  user ← read (λ r, storage.GetUser r userID);
  match user with
  | None => mret []
  | Some _ => read (λ r, team_storage.GetPullRequestsByReviewer r userID)
  end.

End team_service.
End team_service.

Ltac unfold_team_service :=
  unfold team_service.CreateTeam, team_service.GetTeam,
    team_service.SetUserActive, team_service.GetUserReviews,
    mbind, service.M_bind, service.bind, service.read, service.write,
    service.fail, mret, service.M_ret, service.ret in *.

(** The in-memory repository with its [teams] table, answering the
    remaining queries of [PostgresStorage]. *)
Module memory.

Record DB := mkDB {
  tables : persistence.DB;
  teams : list string;
  (** the order of [user_id] values under the collation of the
      database, which neither the schema nor the queries choose *)
  collate : string → string → bool
}.

Definition on_tables (w : persistence.DB → option error * persistence.DB)
    (db : DB) : option error * DB :=
  let '(e, t) := w (tables db) in (e, mkDB t (teams db) (collate db)).

Definition with_users (db : DB) (users : list User) : persistence.DB :=
  persistence.mkDB users (persistence.pull_requests (tables db))
                   (persistence.failing (tables db)).

(** [SELECT EXISTS(SELECT 1 FROM teams WHERE team_name = $1)] *)
Definition TeamExists (db : DB) (teamName : string) : result bool :=
  persistence.query (tables db) "TeamExists"
    (bool_decide (teamName ∈ teams db)).

(** [upsertUserTx]: [INSERT .. ON CONFLICT (user_id) DO UPDATE SET
    username, team_name, is_active] *)
Definition upsertUserTx (rows : list User) (user : User) : list User :=
  if decide (UserID user ∈ UserID <$> rows) then
    (λ row, if decide (UserID row = UserID user) then user else row) <$> rows
  else rows ++ [user].

Definition member_user (teamName : string) (member : team.TeamMember)
    : User := {|
  UserID := team.UserID member;
  Username := team.Username member;
  TeamName := teamName;
  IsActive := team.IsActive member
|}.

(** [CreateTeam]: one transaction; the primary key of [teams] rejects a
    name that is taken, and then nothing is written. *)
Definition CreateTeam (db : DB) (t : team.Team) : option error * DB :=
  if decide ("CreateTeam" ∈ persistence.failing (tables db)) then
    (Some (RepoError "CreateTeam"), db)
  else if decide (team.TeamName t ∈ teams db) then
    (Some (RepoError "duplicate key"), db)
  else
    (None,
     mkDB (with_users db
             (foldl upsertUserTx (persistence.users (tables db))
                    (member_user (team.TeamName t) <$> team.Members t)))
          (teams db ++ [team.TeamName t])
          (collate db)).

Definition user_member (u : User) : team.TeamMember := {|
  team.UserID := UserID u;
  team.Username := Username u;
  team.IsActive := IsActive u
|}.

(** [GetTeam]: nil for an unknown name, else the team's rows
    [ORDER BY user_id], in the order of the database's collation. *)
Definition GetTeam (db : DB) (teamName : string) : result (option team.Team) :=
  persistence.query (tables db) "GetTeam"
    (if decide (teamName ∈ teams db) then
       Some (team.mkTeam teamName
               (user_member <$>
                  merge_sort (λ a b, collate db (UserID a) (UserID b))
                    (filter (λ u, TeamName u = teamName)
                            (persistence.users (tables db)))))
     else None).

(** [UPDATE users SET username, team_name, is_active WHERE user_id = $4] *)
Definition UpdateUser (db : DB) (user : User) : option error * DB :=
  if decide ("UpdateUser" ∈ persistence.failing (tables db)) then
    (Some (RepoError "UpdateUser"), db)
  else
    (None,
     mkDB (with_users db
             ((λ row, if decide (UserID row = UserID user) then user else row)
                <$> persistence.users (tables db)))
          (teams db)
          (collate db)).

Definition short_of (pr : PullRequest) : short.PullRequestShort := {|
  short.PullRequestID := PullRequestID pr;
  short.PullRequestName := PullRequestName pr;
  short.AuthorID := AuthorID pr;
  short.Status := Status pr
|}.

(** [ORDER BY created_at DESC]: later rows first, rows without a
    creation time before all others. *)
Definition newest_first (a b : PullRequest) : Prop :=
  match CreatedAt a, CreatedAt b with
  | None, _ => True
  | Some _, None => False
  | Some x, Some y => (y ≤ x)%Z
  end.

#[global] Instance newest_first_dec : RelDecision newest_first.
Proof.
  intros a b. unfold newest_first.
  destruct (CreatedAt a), (CreatedAt b); apply _.
Defined.

(** [GetPullRequestsByReviewer]: the rows whose reviewer array holds the
    id, newest first, in short form. *)
Definition GetPullRequestsByReviewer (db : DB) (userID : string)
    : result (list short.PullRequestShort) :=
  persistence.query (tables db) "GetPullRequestsByReviewer"
    (short_of <$>
       merge_sort newest_first
         (filter (λ pr, userID ∈ AssignedReviewers pr)
                 (persistence.pull_requests (tables db)))).

Definition store : storage.Storage := {|
  storage.Repo := DB;
  storage.GetUser := λ db, persistence.GetUser (tables db);
  storage.GetUsersByTeam := λ db, persistence.GetUsersByTeam (tables db);
  storage.CreatePullRequest := λ db pr,
    on_tables (λ t, persistence.CreatePullRequest t pr) db;
  storage.GetPullRequest := λ db, persistence.GetPullRequest (tables db);
  storage.UpdatePullRequest := λ db pr,
    on_tables (λ t, persistence.UpdatePullRequest t pr) db;
  storage.PullRequestExists := λ db,
    persistence.PullRequestExists (tables db);
  storage.GetReviewCounts := λ db, persistence.GetReviewCounts (tables db)
|}.

Definition directory : @team_storage.TeamStorage store := {|
  team_storage.CreateTeam := CreateTeam : @storage.Repo store → _;
  team_storage.GetTeam := GetTeam : @storage.Repo store → _;
  team_storage.TeamExists := TeamExists : @storage.Repo store → _;
  team_storage.UpdateUser := UpdateUser : @storage.Repo store → _;
  team_storage.GetPullRequestsByReviewer :=
    GetPullRequestsByReviewer : @storage.Repo store → _
|}.

(** [*Service] over this repository. *)
Definition Service `{RS : rand.Source} : Type := @service.Service store RS.

End memory.

(** Sample data for the repository with its [teams] table. *)
Module sample_teams.

Definition mdb0 : memory.DB :=
  memory.mkDB sample.db0 ["backend"; "ops"] String.leb.

Definition ms0 : memory.Service :=
  @service.mkService memory.store lcg.source mdb0 7%N.

(** a new team that takes [u5] over from [backend] *)
Definition platform : team.Team :=
  team.mkTeam "platform"
    [team.mkTeamMember "u5" "Erin" true; team.mkTeamMember "u8" "Heidi" true].

(** [u4] after deactivation *)
Definition dave_off : User := mkUser "u4" "Dave" "backend" false.


End sample_teams.

(* ===================================================================== *)
(** ** Properties of the environment and of the helpers *)
(* ===================================================================== *)

Section order.

Lemma ltb_false_le x y : String.ltb y x = false ↔ String.le x y.
Proof.
  unfold String.le, String.ltb, String.leb.
  rewrite (String.compare_antisym x y).
  destruct (String.compare y x); simpl; naive_solver.
Qed.

#[global] Instance load_le_trans counts : Transitive (load_le counts).
Proof.
  intros x y z [H1|[H1 L1]] [H2|[H2 L2]]; unfold load_le.
  - left; lia.
  - left; lia.
  - left; lia.
  - right; split; [lia | by etrans].
Qed.

#[global] Instance load_le_antisym counts : AntiSymm (=) (load_le counts).
Proof.
  intros x y [H1|[H1 L1]] [H2|[H2 L2]]; try lia.
  by apply (anti_symm String.le).
Qed.

Lemma load_le_total counts x y : load_le counts x y ∨ load_le counts y x.
Proof.
  unfold load_le.
  destruct (Z.lt_trichotomy (service.count_of counts x)
                            (service.count_of counts y)) as [?|[?|?]];
    [tauto| |tauto].
  destruct (total String.le x y); [left|right]; right; split; auto.
Qed.

Lemma less_false counts a b :
  service.less counts b a = false ↔ load_le counts (UserID a) (UserID b).
Proof.
  unfold service.less, load_le.
  case_decide as Hne.
  - rewrite bool_decide_eq_false. split; [intros; left; lia|].
    intros [?|[? _]]; [lia | congruence].
  - rewrite ltb_false_le. split; [intros; right; split; [lia|done]|].
    intros [?|[_ ?]]; [lia | done].
Qed.

Lemma less_swo counts : sort.StrictWeakOrder (service.less counts).
Proof.
  split.
  - intros a b Hab.
    destruct (load_le_total counts (UserID a) (UserID b)) as [H|H].
    + by apply less_false.
    + apply less_false in H. congruence.
  - intros a b c Hab Hbc. apply less_false.
    apply less_false in Hab, Hbc. by etrans.
Qed.

End order.

Section repository.
Import service.

(** The in-memory repository reads back the merge that
    [UpdatePullRequest] accepted. *)
Lemma persistence_merge_read_back db prID pr now :
  persistence.GetPullRequest db prID = Ok (Some pr) →
  (persistence.UpdatePullRequest db (set_merged pr now)).1 = None →
  persistence.GetPullRequest
    (persistence.UpdatePullRequest db (set_merged pr now)).2 prID
  = Ok (Some (set_merged pr now)).
Proof.
  unfold persistence.GetPullRequest, persistence.UpdatePullRequest,
    persistence.query, persistence.exec.
  destruct (decide ("UpdatePullRequest" ∈ persistence.failing db));
    [done|]. simpl.
  destruct (decide ("GetPullRequest" ∈ persistence.failing db)); [done|].
  intros [= Hhead] _. f_equal.
  assert (PullRequestID pr = prID) as Hid.
  { apply head_Some_elem_of in Hhead.
    apply list_elem_of_filter in Hhead. tauto. }
  assert (persistence.update_row (set_merged pr now) pr = set_merged pr now)
    as Hsame.
  { unfold persistence.update_row. rewrite decide_True by done.
    by destruct pr. }
  assert (∀ row, PullRequestID row ≠ prID →
                 persistence.update_row (set_merged pr now) row = row)
    as Hother.
  { intros row Hrow. unfold persistence.update_row.
    rewrite decide_False; [done|]. simpl. congruence. }
  induction (persistence.pull_requests db) as [|row rows IH]; [done|].
  rewrite filter_cons in Hhead. rewrite fmap_cons, filter_cons.
  destruct (decide (PullRequestID row = prID)) as [Hrow|Hrow].
  - simpl in Hhead. injection Hhead as ->.
    rewrite Hsame. rewrite decide_True by done. done.
  - rewrite (Hother row Hrow). rewrite decide_False by done. by apply IH.
Qed.

(** [user_id] is the primary key of [users]: with pairwise distinct ids
    in the table, the rows that [GetUsersByTeam] returns have pairwise
    distinct ids. *)
Lemma persistence_team_ids_distinct db teamName teamMembers :
  NoDup (UserID <$> persistence.users db) →
  persistence.GetUsersByTeam db teamName = Ok teamMembers →
  NoDup (UserID <$> teamMembers).
Proof.
  unfold persistence.GetUsersByTeam, persistence.query.
  intros Hnd Hget. case_decide; [done|]. injection Hget as <-.
  eapply sublist_NoDup; [exact Hnd|].
  apply fmap_sublist, sublist_filter.
Qed.

End repository.

Section shuffle.
Context `{RS : rand.Source} {A : Type}.
Implicit Types l : list A.

Lemma insert_head_perm l j x y :
  l !! j = Some y → y :: <[j:=x]> l ≡ₚ x :: l.
Proof.
  revert j. induction l as [|a l IH]; intros [|j] Hj; simplify_eq/=.
  - apply Permutation_swap.
  - etrans; [apply Permutation_swap|].
    etrans; [apply Permutation_skip, (IH _ Hj)|]. apply Permutation_swap.
Qed.

Lemma swap_perm l i j : rand.swap l i j ≡ₚ l.
Proof.
  unfold rand.swap.
  destruct (l !! i) as [x|] eqn:Hi; [|done].
  destruct (l !! j) as [y|] eqn:Hj; [|done].
  revert i j Hi Hj. induction l as [|a l IH]; intros [|i] [|j] Hi Hj;
    simplify_eq/=.
  - done.
  - by apply insert_head_perm.
  - by apply insert_head_perm.
  - f_equiv. by apply IH.
Qed.

Lemma Shuffle_loop_perm k r l : (rand.Shuffle_loop k r l).1 ≡ₚ l.
Proof.
  revert r l. induction k as [|k IH]; intros r l; simpl; [done|].
  destruct (rand.Intn r (S (S k))) as [j r'].
  rewrite IH. apply swap_perm.
Qed.

Lemma Shuffle_perm r l : (rand.Shuffle r l).1 ≡ₚ l.
Proof. apply Shuffle_loop_perm. Qed.

End shuffle.

Section helpers.
Context `{ST : storage.Storage} `{RS : rand.Source} `{SO : sort.Sorter}.
Import service.

Lemma candidates_of_spec teamMembers authorID m :
  m ∈ candidates_of teamMembers authorID
  ↔ m ∈ teamMembers ∧ IsActive m = true ∧ UserID m ≠ authorID.
Proof. unfold candidates_of. rewrite list_elem_of_filter. tauto. Qed.

Lemma candidates_of_nil teamMembers authorID :
  candidates_of teamMembers authorID = []
  ↔ ∀ m, m ∈ teamMembers → ¬ (IsActive m = true ∧ UserID m ≠ authorID).
Proof.
  split.
  - intros Hnil m Hm HP.
    assert (m ∈ candidates_of teamMembers authorID) as Hin
      by (apply candidates_of_spec; tauto).
    rewrite Hnil in Hin. by apply elem_of_nil in Hin.
  - intros Hall.
    destruct (candidates_of _ _) as [|m l] eqn:E; [done|].
    assert (m ∈ candidates_of teamMembers authorID) as Hin
      by (rewrite E; left).
    apply candidates_of_spec in Hin. exfalso. eapply Hall; naive_solver.
Qed.

Lemma is_excluded_spec authorID currentReviewers id :
  is_excluded (excluded_of authorID currentReviewers) id = true
  ↔ id = authorID ∨ id ∈ currentReviewers.
Proof.
  unfold excluded_of, is_excluded.
  assert (∀ (m : gmap string bool) l,
      default false (foldl (λ e r, <[r:=true]> e) m l !! id) = true
      ↔ default false (m !! id) = true ∨ id ∈ l) as Hfold.
  { intros m l. revert m. induction l as [|r l IH]; intros m; simpl.
    - rewrite elem_of_nil. tauto.
    - rewrite IH, elem_of_cons.
      destruct (decide (r = id)) as [->|Hne].
      + rewrite lookup_insert_eq. simpl. tauto.
      + rewrite lookup_insert_ne by done. naive_solver. }
  rewrite Hfold.
  destruct (decide (authorID = id)) as [->|Hne].
  - rewrite lookup_insert_eq. simpl. tauto.
  - rewrite lookup_insert_ne, lookup_empty by done. simpl. naive_solver.
Qed.

Lemma replacements_of_spec teamMembers authorID currentReviewers m :
  m ∈ replacements_of teamMembers authorID currentReviewers
  ↔ m ∈ teamMembers ∧ IsActive m = true
    ∧ UserID m ≠ authorID ∧ UserID m ∉ currentReviewers.
Proof.
  unfold replacements_of. rewrite list_elem_of_filter.
  pose proof (is_excluded_spec authorID currentReviewers (UserID m)) as E.
  destruct (is_excluded _ _); naive_solver.
Qed.

Lemma replacements_of_nil teamMembers authorID currentReviewers :
  replacements_of teamMembers authorID currentReviewers = []
  ↔ ∀ m, m ∈ teamMembers →
      ¬ (IsActive m = true ∧ UserID m ≠ authorID
         ∧ UserID m ∉ currentReviewers).
Proof.
  split.
  - intros Hnil m Hm HP.
    assert (m ∈ replacements_of teamMembers authorID currentReviewers) as Hin
      by (apply replacements_of_spec; tauto).
    rewrite Hnil in Hin. by apply elem_of_nil in Hin.
  - intros Hall.
    destruct (replacements_of _ _ _) as [|m l] eqn:E; [done|].
    assert (m ∈ replacements_of teamMembers authorID currentReviewers) as Hin
      by (rewrite E; left).
    apply replacements_of_spec in Hin. exfalso. eapply Hall; naive_solver.
Qed.

(** [pick] on a non-empty slice returns the id of one of its elements
    and only advances the generator. *)
Lemma pick_spec (l : list User) s :
  l ≠ [] →
  ∃ c, c ∈ l ∧ pick l s = (Done (UserID c), with_rng s (rand.Intn (rng s) (length l)).2).
Proof.
  intros Hne. unfold pick.
  pose proof (rand.Intn_bound (rng s) (length l)) as Hb.
  destruct (rand.Intn (rng s) (length l)) as [i g]; simpl in *.
  assert (i < length l) as Hi.
  { apply Hb. destruct l; [done|simpl; lia]. }
  destruct (lookup_lt_is_Some_2 l i Hi) as [c Hc].
  exists c. rewrite Hc. split; [by eapply list_elem_of_lookup_2|done].
Qed.

Lemma min_step_nonempty counts acc c :
  acc.1 = (-1)%Z ∨ acc.2 ≠ [] → (min_step counts acc c).2 ≠ [].
Proof.
  destruct acc as [minCount selected]. unfold min_step. simpl.
  intros Hacc. repeat case_decide; simpl.
  - done.
  - by destruct selected.
  - naive_solver.
Qed.

Lemma min_step_subset counts acc c x :
  x ∈ (min_step counts acc c).2 → x ∈ acc.2 ∨ x = c.
Proof.
  destruct acc as [minCount selected]. unfold min_step.
  repeat case_decide; simpl.
  - intros ->%list_elem_of_singleton. by right.
  - intros [?| ->%list_elem_of_singleton]%elem_of_app; auto.
  - auto.
Qed.

Lemma min_fold_nonempty counts acc l :
  acc.2 ≠ [] → (foldl (min_step counts) acc l).2 ≠ [].
Proof.
  revert acc. induction l as [|c l IH]; intros acc Hacc; simpl; [done|].
  apply IH, min_step_nonempty. by right.
Qed.

Lemma min_fold_subset counts acc l x :
  x ∈ (foldl (min_step counts) acc l).2 → x ∈ acc.2 ∨ x ∈ l.
Proof.
  revert acc. induction l as [|c l IH]; intros acc; simpl; [auto|].
  intros [[?| ->]%min_step_subset|?]%IH; rewrite elem_of_cons; auto.
Qed.

(** The tie group computed by the loop is never empty on a non-empty
    candidate slice, and holds candidates only. *)
Lemma min_loop_nonempty counts candidates :
  candidates ≠ [] → (min_loop counts candidates).2 ≠ [].
Proof.
  destruct candidates as [|c l]; [done|]. intros _. unfold min_loop.
  cbn [foldl]. apply min_fold_nonempty, min_step_nonempty. by left.
Qed.

Lemma min_loop_subset counts candidates x :
  x ∈ (min_loop counts candidates).2 → x ∈ candidates.
Proof.
  intros [Hx|Hx]%min_fold_subset; [|done]. by apply elem_of_nil in Hx.
Qed.

Lemma submseteq_NoDup {A} (l1 l2 : list A) :
  l1 ⊆+ l2 → NoDup l2 → NoDup l1.
Proof.
  intros [k Hk]%submseteq_Permutation Hnd. rewrite Hk in Hnd.
  apply NoDup_app in Hnd. tauto.
Qed.

Lemma candidate_ids_NoDup teamMembers authorID :
  NoDup (UserID <$> teamMembers) →
  NoDup (UserID <$> candidates_of teamMembers authorID).
Proof.
  intros Hnd. eapply sublist_NoDup; [exact Hnd|].
  apply fmap_sublist, sublist_filter.
Qed.

(** With review counts at hand the sorted candidate ids are the one
    rearrangement of the candidate ids that is ordered by [load_le]. *)
Lemma sorted_candidate_ids counts (candidates : list User) sorted_ids :
  sorted_ids ≡ₚ UserID <$> candidates →
  StronglySorted (load_le counts) sorted_ids →
  UserID <$> sort.Slice (less counts) candidates = sorted_ids.
Proof.
  intros Hperm Hsorted.
  apply (StronglySorted_unique (load_le counts)); [|done|].
  - eapply StronglySorted_fmap; [|apply sort.Slice_sorted, less_swo].
    intros a b Hab. by apply less_false.
  - by rewrite sort.Slice_perm.
Qed.

(** [randomSelection] draws its result from the candidates without
    replacement and touches the generator only. *)
Lemma randomSelection_spec (candidates : list User) maxCount s :
  ∃ picked s',
    randomSelection candidates maxCount s = (UserID <$> picked, s')
    ∧ repo s' = repo s
    ∧ picked ⊆+ candidates
    ∧ length picked = min maxCount (length candidates).
Proof.
  unfold randomSelection. case_decide as Hlen.
  - exists candidates, s. repeat split; [done|lia].
  - pose proof (Shuffle_perm (rng s) candidates) as Hperm.
    destruct (rand.Shuffle (rng s) candidates) as [shuffled g]; simpl in *.
    exists (take maxCount shuffled), (with_rng s g). repeat split.
    + rewrite <-Hperm. apply sublist_submseteq, sublist_take.
    + rewrite length_take. by rewrite Hperm.
Qed.

(** A [NO_CANDIDATE] failure of [findReplacement] means the candidate
    slice was empty. *)
Lemma findReplacement_fails_nil teamMembers authorID currentReviewers s :
  fails_with ErrNoCandidate
    (findReplacement teamMembers authorID currentReviewers s).1 →
  replacements_of teamMembers authorID currentReviewers = [].
Proof.
  intros [msg Hfail].
  destruct (replacements_of teamMembers authorID currentReviewers)
    as [|c0 l] eqn:E; [done|exfalso].
  unfold findReplacement in Hfail. rewrite E in Hfail.
  rewrite decide_False in Hfail by done.
  destruct (storage.GetReviewCounts _ _) as [counts|e].
  - rewrite decide_True in Hfail.
    + destruct (pick_spec (min_loop counts (c0 :: l)).2 s)
        as (c & _ & Hpick); [by apply min_loop_nonempty|].
      by rewrite Hpick in Hfail.
    + pose proof (min_loop_nonempty counts (c0 :: l)) as Hne.
      destruct (min_loop counts (c0 :: l)).2; [naive_solver|simpl; lia].
  - destruct (pick_spec (c0 :: l) s) as (c & _ & Hpick); [done|].
    by rewrite Hpick in Hfail.
Qed.

(** An id returned by [findReplacement] belongs to one of its
    candidates. *)
Lemma findReplacement_candidate teamMembers authorID currentReviewers s id s' :
  findReplacement teamMembers authorID currentReviewers s = (Done id, s') →
  ∃ c, c ∈ replacements_of teamMembers authorID currentReviewers
       ∧ id = UserID c.
Proof.
  unfold findReplacement. intros Hfind.
  case_decide as Hlen; [done|].
  assert (replacements_of teamMembers authorID currentReviewers ≠ [])
    as Hne by (intros E; by rewrite E in Hlen).
  destruct (storage.GetReviewCounts _ _) as [counts|e].
  - case_decide as Hsel; [|done].
    destruct (pick_spec (min_loop counts
               (replacements_of teamMembers authorID currentReviewers)).2 s)
      as (c & Hc & Hpick).
    { intros E. rewrite E in Hsel. simpl in Hsel. lia. }
    rewrite Hpick in Hfind. simplify_eq.
    exists c. split; [by eapply min_loop_subset|done].
  - destruct (pick_spec _ s Hne) as (c & Hc & Hpick).
    rewrite Hpick in Hfind. simplify_eq. by exists c.
Qed.

Lemma findReplacement_fresh teamMembers authorID currentReviewers s id s' :
  findReplacement teamMembers authorID currentReviewers s = (Done id, s') →
  id ≠ authorID ∧ id ∉ currentReviewers.
Proof.
  intros (c & Hc & ->)%findReplacement_candidate.
  apply replacements_of_spec in Hc. tauto.
Qed.

(** [findReplacement] never indexes out of range. *)
Lemma findReplacement_no_panic teamMembers authorID currentReviewers s :
  (findReplacement teamMembers authorID currentReviewers s).1 ≠ Panic.
Proof.
  unfold findReplacement. case_decide as Hlen; [done|].
  assert (replacements_of teamMembers authorID currentReviewers ≠ [])
    as Hne by (intros E; by rewrite E in Hlen).
  destruct (storage.GetReviewCounts _ _) as [counts|e].
  - case_decide as Hsel; [|done].
    destruct (pick_spec (min_loop counts
               (replacements_of teamMembers authorID currentReviewers)).2 s)
      as (c & _ & ->); [|done].
    intros E. rewrite E in Hsel. simpl in Hsel. lia.
  - by destruct (pick_spec _ s Hne) as (c & _ & ->).
Qed.

End helpers.

(* ===================================================================== *)
(** ** Assignment engine *)
(* ===================================================================== *)

Section assignment.
Context `{ST : storage.Storage} `{RS : rand.Source} `{SO : sort.Sorter}.
Import service.

(** C1. When the review counts are retrieved, the candidate ids have
    exactly one arrangement [sorted_ids] ordered by review load
    ascending, user id ascending among equal loads, and [assignReviewers]
    returns its first [min 2 n] ids, leaving the generator and the
    repository alone; no returned id is the author's; and the returned
    ids are pairwise distinct, the team members' user ids being pairwise
    distinct as they are in every list that [GetUsersByTeam] hands to
    [assignReviewers] ([user_id] is the primary key of [users]). *)
Theorem assignReviewers_least_loaded teamMembers authorID s counts :
  storage.GetReviewCounts (repo s)
    (UserID <$> candidates_of teamMembers authorID) = Ok counts →
  ∃ sorted_ids,
    sorted_ids ≡ₚ UserID <$> candidates_of teamMembers authorID
    ∧ StronglySorted (load_le counts) sorted_ids
    ∧ (∀ ids, ids ≡ₚ UserID <$> candidates_of teamMembers authorID →
              StronglySorted (load_le counts) ids → ids = sorted_ids)
    ∧ assignReviewers teamMembers authorID s = (take 2 sorted_ids, s)
    ∧ length (take 2 sorted_ids)
      = min 2 (length (candidates_of teamMembers authorID))
    ∧ (authorID ∉ take 2 sorted_ids)
    ∧ (NoDup (UserID <$> teamMembers) → NoDup (take 2 sorted_ids)).
Proof.
  intros Hcounts.
  set (candidates := candidates_of teamMembers authorID) in *.
  set (sorted_ids := UserID <$> sort.Slice (less counts) candidates).
  assert (sorted_ids ≡ₚ UserID <$> candidates) as Hperm.
  { unfold sorted_ids. by rewrite sort.Slice_perm. }
  assert (StronglySorted (load_le counts) sorted_ids) as Hsorted.
  { unfold sorted_ids.
    eapply StronglySorted_fmap; [|apply sort.Slice_sorted, less_swo].
    intros a b Hab. by apply less_false. }
  exists sorted_ids. split; [done|]. split; [done|].
  split; [|split; [|split; [|split]]].
  - intros ids Hids Hids_sorted. symmetry.
    by apply sorted_candidate_ids.
  - unfold assignReviewers. fold candidates. case_decide as Hlen.
    + apply nil_length_inv in Hlen. rewrite Hlen in Hperm.
      apply Permutation_nil_r in Hperm. by rewrite Hperm.
    + rewrite Hcounts. by rewrite fmap_take.
  - rewrite length_take, Hperm, length_fmap. done.
  - intros Hin. eapply elem_of_sublist in Hin; [|apply sublist_take].
    rewrite Hperm in Hin.
    apply list_elem_of_fmap in Hin as (m & -> & Hm).
    apply candidates_of_spec in Hm. tauto.
  - intros Hnd. eapply sublist_NoDup; [|apply sublist_take].
    rewrite Hperm. by apply candidate_ids_NoDup.
Qed.

(** C2. With no member both active and distinct from the author,
    [assignReviewers] returns the empty list without consulting the
    repository or the generator, and [CreatePullRequest] stores and
    returns an OPEN pull request with zero reviewers. *)
Theorem assignReviewers_no_candidates teamMembers authorID s :
  (∀ m, m ∈ teamMembers → ¬ (IsActive m = true ∧ UserID m ≠ authorID)) →
  assignReviewers teamMembers authorID s = ([], s)
  ∧ ∀ now prID prName author r',
      storage.PullRequestExists (repo s) prID = Ok false →
      storage.GetUser (repo s) authorID = Ok (Some author) →
      storage.GetUsersByTeam (repo s) (TeamName author) = Ok teamMembers →
      storage.CreatePullRequest (repo s)
        (mkPullRequest prID prName authorID StatusOpen [] (Some now) None)
        = (None, r') →
      CreatePullRequest now prID prName authorID s
      = (Done (mkPullRequest prID prName authorID StatusOpen []
                             (Some now) None),
         with_repo s r').
Proof.
  intros Hnone%candidates_of_nil.
  assert (assignReviewers teamMembers authorID s = ([], s)) as Hassign.
  { unfold assignReviewers. rewrite Hnone. done. }
  split; [done|].
  intros now prID prName author r' Hex Hau Hteam Hcreate.
  unfold CreatePullRequest, mbind, M_bind, bind, read, write, total,
    mret, M_ret, ret.
  rewrite Hex, Hau, Hteam, Hassign, Hcreate. done.
Qed.

(** C3. Whenever [findReplacement] succeeds, on the load-based path or
    on the random fallback, the returned id is not the author's, is not
    among the current reviewers, and is the id of an active team
    member. *)
Theorem findReplacement_eligible
    teamMembers authorID currentReviewers s id s' :
  findReplacement teamMembers authorID currentReviewers s = (Done id, s') →
  id ≠ authorID
  ∧ (id ∉ currentReviewers)
  ∧ ∃ m, m ∈ teamMembers ∧ IsActive m = true ∧ UserID m = id.
Proof.
  intros (c & Hc & ->)%findReplacement_candidate.
  apply replacements_of_spec in Hc. naive_solver.
Qed.

(** C4. [findReplacement] fails with [NO_CANDIDATE] exactly when no team
    member is active and outside the excluded set (the author and the
    current reviewers); the state is then unchanged. *)
Theorem findReplacement_no_candidate
    teamMembers authorID currentReviewers s :
  ((∀ m, m ∈ teamMembers →
      ¬ (IsActive m = true ∧ UserID m ≠ authorID
         ∧ UserID m ∉ currentReviewers)) →
   findReplacement teamMembers authorID currentReviewers s
   = (Fail noCandidate, s))
  ∧ (fails_with ErrNoCandidate
       (findReplacement teamMembers authorID currentReviewers s).1 →
     ∀ m, m ∈ teamMembers →
       ¬ (IsActive m = true ∧ UserID m ≠ authorID
          ∧ UserID m ∉ currentReviewers)).
Proof.
  split.
  - intros Hnone%replacements_of_nil. unfold findReplacement.
    rewrite Hnone. done.
  - intros Hfail. apply replacements_of_nil.
    by apply (findReplacement_fails_nil _ _ _ s).
Qed.

(** C10. On a non-empty candidate slice the tie group computed by the
    minimum-load loop is non-empty, so with review counts retrieved
    [findReplacement] returns a member of the tie group and never takes
    its final [NO_CANDIDATE] return; a [NO_CANDIDATE] failure only comes
    from the empty-candidate check. *)
Theorem findReplacement_tie_group_nonempty
    teamMembers authorID currentReviewers s counts :
  replacements_of teamMembers authorID currentReviewers ≠ [] →
  storage.GetReviewCounts (repo s)
    (UserID <$> replacements_of teamMembers authorID currentReviewers)
    = Ok counts →
  let selected :=
    (min_loop counts
       (replacements_of teamMembers authorID currentReviewers)).2 in
  0 < length selected
  ∧ (∃ c, c ∈ selected
        ∧ findReplacement teamMembers authorID currentReviewers s
          = (Done (UserID c),
             with_rng s (rand.Intn (rng s) (length selected)).2))
  ∧ ∀ s1, fails_with ErrNoCandidate
            (findReplacement teamMembers authorID currentReviewers s1).1 →
          replacements_of teamMembers authorID currentReviewers = [].
Proof.
  intros Hne Hcounts selected.
  assert (selected ≠ []) as Hsel by by apply min_loop_nonempty.
  assert (0 < length selected) as Hlen.
  { destruct selected; [done|simpl; lia]. }
  split; [done|]. split.
  - destruct (pick_spec selected s Hsel) as (c & Hc & Hpick).
    exists c. split; [done|]. unfold findReplacement.
    rewrite decide_False.
    + rewrite Hcounts. fold selected. by rewrite decide_True.
    + intros E. by apply nil_length_inv in E.
  - intros s1 Hfail. by apply (findReplacement_fails_nil _ _ _ s1).
Qed.

End assignment.

(* ===================================================================== *)
(** ** Entity lifecycle *)
(* ===================================================================== *)

Section lifecycle_helpers.
Context `{ST : storage.Storage} `{RS : rand.Source} `{SO : sort.Sorter}.
Import service.

Lemma reviewer_index_Some oldReviewerID reviewers i :
  reviewer_index oldReviewerID reviewers = Some i
  ↔ reviewers !! i = Some oldReviewerID
    ∧ ∀ j, j < i → reviewers !! j ≠ Some oldReviewerID.
Proof.
  unfold reviewer_index. split.
  - destruct (list_find _ _) as [[i' x]|] eqn:E; [|done].
    intros [= ->]. apply list_find_Some in E as (Hi & -> & Hleast).
    split; [done|]. intros j Hj Hlook. by eapply Hleast.
  - intros [Hi Hleast].
    assert (list_find (λ r, r = oldReviewerID) reviewers
            = Some (i, oldReviewerID)) as ->; [|done].
    apply list_find_Some. split; [done|]. split; [done|].
    intros j y Hy Hj ->. by eapply Hleast.
Qed.

Lemma reviewer_index_None oldReviewerID reviewers :
  reviewer_index oldReviewerID reviewers = None
  ↔ oldReviewerID ∉ reviewers.
Proof.
  unfold reviewer_index. rewrite fmap_None, list_find_None, Forall_forall.
  naive_solver.
Qed.

Lemma pick_repo l s : repo (pick l s).2 = repo s.
Proof.
  unfold pick. destruct (rand.Intn _ _) as [i g].
  by destruct (l !! i).
Qed.

(** Replacement selection never touches the repository. *)
Lemma findReplacement_repo teamMembers authorID currentReviewers s :
  repo (findReplacement teamMembers authorID currentReviewers s).2 = repo s.
Proof.
  unfold findReplacement. case_decide; [done|].
  destruct (storage.GetReviewCounts _ _); [|apply pick_repo].
  case_decide; [apply pick_repo|done].
Qed.

Lemma assignReviewers_repo teamMembers authorID s :
  repo (assignReviewers teamMembers authorID s).2 = repo s.
Proof.
  unfold assignReviewers. case_decide; [done|].
  destruct (storage.GetReviewCounts _ _); [done|].
  destruct (randomSelection_spec (candidates_of teamMembers authorID) 2 s)
    as (picked & s' & -> & Hrepo & _). done.
Qed.

Lemma elem_of_insert_inv {A} (l : list A) i x y :
  y ∈ <[i:=x]> l → y = x ∨ y ∈ l.
Proof.
  revert i. induction l as [|a l IH]; intros [|i]; simpl;
    rewrite ?elem_of_cons; naive_solver.
Qed.

Lemma NoDup_insert_fresh {A} (l : list A) i x :
  NoDup l → x ∉ l → NoDup (<[i:=x]> l).
Proof.
  revert i. induction l as [|a l IH]; intros [|i] Hnd Hx; simpl; try done.
  - apply NoDup_cons in Hnd as [_ Hnd]. apply NoDup_cons.
    split; [|done]. intros Hin. apply Hx. by right.
  - apply NoDup_cons in Hnd as [Ha Hnd]. apply NoDup_cons. split.
    + intros [->|Hin]%elem_of_insert_inv; [|done]. apply Hx. by left.
    + apply IH; [done|]. intros Hin. apply Hx. by right.
Qed.

(** The reviewers chosen for a new pull request are well formed when
    the team's user ids are pairwise distinct. *)
Lemma assignReviewers_ok teamMembers authorID s :
  NoDup (UserID <$> teamMembers) →
  let reviewers := (assignReviewers teamMembers authorID s).1 in
  (authorID ∉ reviewers) ∧ NoDup reviewers ∧ length reviewers ≤ 2.
Proof.
  intros Hnd. simpl. unfold assignReviewers.
  pose proof (candidate_ids_NoDup teamMembers authorID Hnd) as Hcand.
  assert (∀ picked : list User,
    picked ⊆+ candidates_of teamMembers authorID →
    length picked ≤ 2 →
    (authorID ∉ UserID <$> picked) ∧ NoDup (UserID <$> picked)
    ∧ length (UserID <$> picked) ≤ 2) as Hsub.
  { intros picked Hpicked Hlen. split; [|split].
    - intros (m & -> & Hm)%list_elem_of_fmap.
      eapply elem_of_submseteq in Hm; [|exact Hpicked].
      apply candidates_of_spec in Hm. tauto.
    - eapply submseteq_NoDup; [|exact Hcand]. by apply fmap_submseteq.
    - by rewrite length_fmap. }
  case_decide as Hlen.
  { simpl. split; [apply not_elem_of_nil|]. split; [constructor|lia]. }
  destruct (storage.GetReviewCounts _ _) as [counts|e].
  - simpl. apply Hsub.
    + rewrite <-(sort.Slice_perm _ (less counts) (candidates_of _ _)) at 2.
      apply sublist_submseteq, sublist_take.
    + rewrite length_take. lia.
  - destruct (randomSelection_spec (candidates_of teamMembers authorID) 2 s)
      as (picked & s' & -> & _ & Hpicked & Hlen').
    simpl. apply Hsub; [done|lia].
Qed.

End lifecycle_helpers.

Section lifecycle.
Context `{ST : storage.Storage} `{RS : rand.Source} `{SO : sort.Sorter}.
Import service.

(** C5. [MergePullRequest] is idempotent. On a stored pull request
    that is already MERGED the call succeeds, returns the stored value
    as it is and leaves the service state untouched (no update is
    issued); on the first call the status becomes MERGED and the merge
    timestamp is set to that call's time; and a second merge, reading
    back what the first one returned, gives the same value and the same
    state whatever its own clock reading. *)
Theorem MergePullRequest_idempotent prID s pr :
  storage.GetPullRequest (repo s) prID = Ok (Some pr) →
  (Status pr = StatusMerged →
     ∀ now, MergePullRequest now prID s = (Done pr, s))
  ∧ (Status pr ≠ StatusMerged →
     ∀ now r',
       storage.UpdatePullRequest (repo s) (set_merged pr now) = (None, r') →
       MergePullRequest now prID s
       = (Done (set_merged pr now), with_repo s r'))
  ∧ (∀ now1 now2 pr1 s1,
       MergePullRequest now1 prID s = (Done pr1, s1) →
       storage.GetPullRequest (repo s1) prID = Ok (Some pr1) →
       MergePullRequest now2 prID s1 = (Done pr1, s1)
       ∧ Status pr1 = StatusMerged
       ∧ MergedAt pr1
         = if decide (Status pr = StatusMerged) then MergedAt pr
           else Some now1).
Proof.
  intros Hget. split; [|split].
  - intros Hmerged now. unfold_service. rewrite Hget.
    by rewrite decide_True.
  - intros Hopen now r' Hupd. unfold_service. rewrite Hget.
    rewrite decide_False by done. by rewrite Hupd.
  - intros now1 now2 pr1 s1 Hfirst Hread.
    assert (Status pr1 = StatusMerged
            ∧ MergedAt pr1 = if decide (Status pr = StatusMerged)
                             then MergedAt pr else Some now1) as [Hst Hat].
    { unfold_service. rewrite Hget in Hfirst.
      case_decide; [by simplify_eq|].
      destruct (storage.UpdatePullRequest _ _) as [[e|] r']; by simplify_eq. }
    split; [|done].
    unfold_service. rewrite Hread. by rewrite decide_True.
Qed.

(** C6. The failure conditions of [ReassignReviewer] in their order of
    precedence: an absent pull request is [NOT_FOUND]; else a MERGED one
    is [PR_MERGED], whatever [oldReviewerID] is; else an
    [oldReviewerID] that is not in the reviewer list is [NOT_ASSIGNED];
    else an unknown [oldReviewerID] is [NOT_FOUND]; else replacement
    selection runs on the old reviewer's team and its failure, which is
    [NO_CANDIDATE] when no member is eligible, is the call's failure. *)
Theorem ReassignReviewer_precedence prID oldReviewerID s :
  (storage.GetPullRequest (repo s) prID = Ok None →
     ReassignReviewer prID oldReviewerID s
     = (Fail (ServiceError ErrNotFound "PR not found"), s))
  ∧ ∀ pr,
     storage.GetPullRequest (repo s) prID = Ok (Some pr) →
     (Status pr = StatusMerged →
        ReassignReviewer prID oldReviewerID s
        = (Fail (ServiceError ErrPRMerged "cannot reassign on merged PR"), s))
     ∧ (Status pr ≠ StatusMerged →
        oldReviewerID ∉ AssignedReviewers pr →
        ReassignReviewer prID oldReviewerID s
        = (Fail (ServiceError ErrNotAssigned
                   "reviewer is not assigned to this PR"), s))
     ∧ (Status pr ≠ StatusMerged →
        oldReviewerID ∈ AssignedReviewers pr →
        (storage.GetUser (repo s) oldReviewerID = Ok None →
           ReassignReviewer prID oldReviewerID s
           = (Fail (ServiceError ErrNotFound "old reviewer not found"), s))
        ∧ ∀ oldReviewer teamMembers,
           storage.GetUser (repo s) oldReviewerID = Ok (Some oldReviewer) →
           storage.GetUsersByTeam (repo s) (TeamName oldReviewer)
             = Ok teamMembers →
           (∀ e s',
              findReplacement teamMembers (AuthorID pr)
                              (AssignedReviewers pr) s = (Fail e, s') →
              ReassignReviewer prID oldReviewerID s = (Fail e, s'))
           ∧ (replacements_of teamMembers (AuthorID pr)
                              (AssignedReviewers pr) = [] →
              ReassignReviewer prID oldReviewerID s
              = (Fail noCandidate, s))).
Proof.
  split.
  { intros Hget. unfold_service. by rewrite Hget. }
  intros pr Hget. split; [|split].
  - intros Hmerged. unfold_service. rewrite Hget. by rewrite decide_True.
  - intros Hopen Hold%reviewer_index_None. unfold_service.
    rewrite Hget. rewrite decide_False by done. by rewrite Hold.
  - intros Hopen Hold.
    destruct (reviewer_index oldReviewerID (AssignedReviewers pr))
      as [i|] eqn:Hidx; [|by apply reviewer_index_None in Hidx].
    split.
    { intros Huser. unfold_service. rewrite Hget.
      rewrite decide_False by done. by rewrite Hidx, Huser. }
    intros oldReviewer teamMembers Huser Hteam.
    assert (∀ e s',
      findReplacement teamMembers (AuthorID pr) (AssignedReviewers pr) s
        = (Fail e, s') →
      ReassignReviewer prID oldReviewerID s = (Fail e, s')) as Hfail.
    { intros e s' Hfind. unfold_service. rewrite Hget.
      rewrite decide_False by done. by rewrite Hidx, Huser, Hteam, Hfind. }
    split; [done|].
    intros Hnil. apply Hfail. unfold findReplacement. by rewrite Hnil.
Qed.

(** C7. A successful [ReassignReviewer] writes the new reviewer id at
    the index where [oldReviewerID] first stood: the list keeps its
    length and every other position, all other fields of the pull
    request are unchanged, and this pull request is what is handed to
    [UpdatePullRequest]. *)
Theorem ReassignReviewer_in_place prID oldReviewerID s pr' newReviewerID s' :
  ReassignReviewer prID oldReviewerID s = (Done (pr', newReviewerID), s') →
  ∃ pr i,
    storage.GetPullRequest (repo s) prID = Ok (Some pr)
    ∧ AssignedReviewers pr !! i = Some oldReviewerID
    ∧ (∀ j, j < i → AssignedReviewers pr !! j ≠ Some oldReviewerID)
    ∧ AssignedReviewers pr' = <[i:=newReviewerID]> (AssignedReviewers pr)
    ∧ AssignedReviewers pr' !! i = Some newReviewerID
    ∧ length (AssignedReviewers pr') = length (AssignedReviewers pr)
    ∧ (∀ j, j ≠ i → AssignedReviewers pr' !! j = AssignedReviewers pr !! j)
    ∧ PullRequestID pr' = PullRequestID pr
    ∧ PullRequestName pr' = PullRequestName pr
    ∧ AuthorID pr' = AuthorID pr
    ∧ Status pr' = Status pr
    ∧ CreatedAt pr' = CreatedAt pr
    ∧ MergedAt pr' = MergedAt pr
    ∧ storage.UpdatePullRequest (repo s) pr' = (None, repo s').
Proof.
  intros Hrun. unfold_service.
  destruct (storage.GetPullRequest (repo s) prID) as [[pr|]|e] eqn:Hget;
    [|done..].
  case_decide as Hst; [done|].
  destruct (reviewer_index oldReviewerID (AssignedReviewers pr))
    as [i|] eqn:Hidx; [|done].
  destruct (storage.GetUser (repo s) oldReviewerID)
    as [[oldReviewer|]|e] eqn:Huser; [|done..].
  destruct (storage.GetUsersByTeam (repo s) (TeamName oldReviewer))
    as [teamMembers|e] eqn:Hteam; [|done].
  pose proof (findReplacement_repo teamMembers (AuthorID pr)
                (AssignedReviewers pr) s) as Hrepo.
  destruct (findReplacement teamMembers (AuthorID pr)
              (AssignedReviewers pr) s) as [[new|e|] s1]; [|done..].
  simpl in Hrepo.
  destruct (storage.UpdatePullRequest (repo s1) _) as [[e|] r'] eqn:Hupd;
    [done|]. simplify_eq.
  apply reviewer_index_Some in Hidx as [Hi Hleast].
  exists pr, i. simpl.
  assert (i < length (AssignedReviewers pr)) by by eapply lookup_lt_Some.
  repeat split; try done.
  - by apply list_lookup_insert_eq.
  - apply length_insert.
  - intros j Hj. by apply list_lookup_insert_ne.
  - by rewrite <-Hrepo.
Qed.

(** C9. Every operation that produces or changes a reviewer list keeps
    it well formed (author absent, no duplicate ids, length at most 2):
    [CreatePullRequest] produces such a list when the ids of the team
    members it reads are pairwise distinct, and [ReassignReviewer]
    turns a well-formed stored list into a well-formed one. *)
Theorem reviewer_list_invariant s :
  (∀ now prID prName authorID pr s',
     (∀ teamName teamMembers,
        storage.GetUsersByTeam (repo s) teamName = Ok teamMembers →
        NoDup (UserID <$> teamMembers)) →
     CreatePullRequest now prID prName authorID s = (Done pr, s') →
     reviewers_ok pr)
  ∧ (∀ prID oldReviewerID pr pr' newReviewerID s',
       storage.GetPullRequest (repo s) prID = Ok (Some pr) →
       reviewers_ok pr →
       ReassignReviewer prID oldReviewerID s
         = (Done (pr', newReviewerID), s') →
       reviewers_ok pr').
Proof.
  split.
  - intros now prID prName authorID pr s' Hdistinct Hrun. unfold_service.
    destruct (storage.PullRequestExists (repo s) prID) as [[|]|e];
      [done| |done].
    destruct (storage.GetUser (repo s) authorID) as [[author|]|e];
      [|done..].
    destruct (storage.GetUsersByTeam (repo s) (TeamName author))
      as [teamMembers|e] eqn:Hteam; [|done].
    pose proof (assignReviewers_ok teamMembers authorID s
                  (Hdistinct _ _ Hteam)) as Hok.
    destruct (assignReviewers teamMembers authorID s) as [reviewers s1].
    destruct (storage.CreatePullRequest (repo s1) _) as [[e|] r'];
      [done|]. simplify_eq. exact Hok.
  - intros prID oldReviewerID pr pr' newReviewerID s' Hget Hok Hrun.
    unfold_service. rewrite Hget in Hrun.
    case_decide as Hst; [done|].
    destruct (reviewer_index oldReviewerID (AssignedReviewers pr))
      as [i|] eqn:Hidx; [|done].
    destruct (storage.GetUser (repo s) oldReviewerID)
      as [[oldReviewer|]|e]; [|done..].
    destruct (storage.GetUsersByTeam (repo s) (TeamName oldReviewer))
      as [teamMembers|e]; [|done].
    destruct (findReplacement teamMembers (AuthorID pr)
                (AssignedReviewers pr) s) as [[new|e|] s1] eqn:Hfind;
      [|done..].
    destruct (storage.UpdatePullRequest (repo s1) _) as [[e|] r'];
      [done|]. simplify_eq.
    destruct (findReplacement_fresh _ _ _ _ _ _ Hfind) as [Hauthor Hfresh].
    destruct Hok as (Hau & Hnd & Hlen).
    unfold reviewers_ok; simpl. split; [|split].
    + intros [?|?]%elem_of_insert_inv; done.
    + by apply NoDup_insert_fresh.
    + by rewrite length_insert.
Qed.


End lifecycle.

(* ===================================================================== *)
(** ** The theorems on sample data *)
(* ===================================================================== *)

Section examples.
Import service sample.

Lemma assignReviewers_least_loaded_witness :
  ∃ sorted_ids,
    sorted_ids ≡ₚ UserID <$> candidates_of team "u1"
    ∧ StronglySorted (load_le (counts_for ["u2"; "u3"; "u4"])) sorted_ids
    ∧ (∀ ids, ids ≡ₚ UserID <$> candidates_of team "u1" →
              StronglySorted (load_le (counts_for ["u2"; "u3"; "u4"])) ids →
              ids = sorted_ids)
    ∧ assignReviewers team "u1" s0 = (take 2 sorted_ids, s0)
    ∧ length (take 2 sorted_ids) = min 2 (length (candidates_of team "u1"))
    ∧ ("u1" ∉ take 2 sorted_ids)
    ∧ (NoDup (UserID <$> team) → NoDup (take 2 sorted_ids)).
Proof.
  apply (assignReviewers_least_loaded
           team "u1" s0 (counts_for ["u2"; "u3"; "u4"])).
  reflexivity.
Defined.

(** On the sample team the least loaded reviewers are [u4] (no open
    review) and [u3] (one). *)
Example assignReviewers_sample :
  assignReviewers team "u1" s0 = (["u4"; "u3"], s0).
Proof. reflexivity. Qed.

Lemma assignReviewers_no_candidates_witness :
  assignReviewers [alice; erin] "u1" s_small = ([], s_small)
  ∧ CreatePullRequest 200%Z "pr-9" "Solo work" "u1" s_small
    = (Done (mkPullRequest "pr-9" "Solo work" "u1" StatusOpen []
                           (Some 200%Z) None),
       with_repo s_small
         (persistence.mkDB [alice; erin]
            [mkPullRequest "pr-9" "Solo work" "u1" StatusOpen []
                           (Some 200%Z) None] [])).
Proof.
  destruct (assignReviewers_no_candidates [alice; erin] "u1" s_small)
    as [Hassign Hcreate].
  - intros m Hm [Hactive Hid].
    apply elem_of_cons in Hm as [->|Hm]; [done|].
    apply list_elem_of_singleton in Hm as ->. done.
  - split; [exact Hassign|].
    apply (Hcreate 200%Z "pr-9" "Solo work" alice); reflexivity.
Defined.

Lemma findReplacement_eligible_witness :
  "u4" ≠ "u1"
  ∧ ("u4" ∉ ["u2"; "u3"])
  ∧ ∃ m, m ∈ team ∧ IsActive m = true ∧ UserID m = "u4".
Proof.
  apply (findReplacement_eligible team "u1" ["u2"; "u3"] s0 "u4"
           (findReplacement team "u1" ["u2"; "u3"] s0).2).
  reflexivity.
Defined.

Lemma findReplacement_no_candidate_witness :
  findReplacement [frank; grace] "u6" ["u7"] s0 = (Fail noCandidate, s0)
  ∧ ∀ m, m ∈ [frank; grace] →
      ¬ (IsActive m = true ∧ UserID m ≠ "u6" ∧ UserID m ∉ ["u7"]).
Proof.
  destruct (findReplacement_no_candidate [frank; grace] "u6" ["u7"] s0)
    as [Hfail Honly].
  split.
  - apply Hfail. intros m Hm (_ & Hauthor & Hrev).
    apply elem_of_cons in Hm as [->|Hm]; [done|].
    apply list_elem_of_singleton in Hm as ->. apply Hrev. by left.
  - apply Honly. eexists. reflexivity.
Defined.

Lemma findReplacement_tie_group_nonempty_witness :
  let selected :=
    (min_loop (counts_for ["u4"]) (replacements_of team "u1" ["u2"; "u3"])).2
  in
  0 < length selected
  ∧ (∃ c, c ∈ selected
        ∧ findReplacement team "u1" ["u2"; "u3"] s0
          = (Done (UserID c),
             with_rng s0 (rand.Intn (rng s0) (length selected)).2))
  ∧ ∀ s1, fails_with ErrNoCandidate
            (findReplacement team "u1" ["u2"; "u3"] s1).1 →
          replacements_of team "u1" ["u2"; "u3"] = [].
Proof.
  apply (findReplacement_tie_group_nonempty
           team "u1" ["u2"; "u3"] s0 (counts_for ["u4"])).
  - discriminate.
  - reflexivity.
Defined.

Lemma MergePullRequest_idempotent_witness :
  MergePullRequest 200%Z "pr-3" s0 = (Done pr3, s0)
  ∧ MergePullRequest 200%Z "pr-1" s0 = (Done pr1_merged, s0_merged)
  ∧ MergePullRequest 300%Z "pr-1" s0_merged = (Done pr1_merged, s0_merged)
  ∧ Status pr1_merged = StatusMerged
  ∧ MergedAt pr1_merged = Some 200%Z.
Proof.
  destruct (MergePullRequest_idempotent "pr-3" s0 pr3) as (Hagain & _ & _);
    [reflexivity|].
  destruct (MergePullRequest_idempotent "pr-1" s0 pr1)
    as (_ & Hfirst & Htwice); [reflexivity|].
  split; [apply Hagain; reflexivity|].
  split.
  { apply (Hfirst ltac:(discriminate) 200%Z (repo s0_merged)).
    reflexivity. }
  apply (Htwice 200%Z 300%Z pr1_merged s0_merged); reflexivity.
Defined.

Lemma ReassignReviewer_precedence_witness :
  ReassignReviewer "pr-0" "u2" s0
    = (Fail (ServiceError ErrNotFound "PR not found"), s0)
  ∧ ReassignReviewer "pr-3" "u9" s0
    = (Fail (ServiceError ErrPRMerged "cannot reassign on merged PR"), s0)
  ∧ ReassignReviewer "pr-1" "u4" s0
    = (Fail (ServiceError ErrNotAssigned
               "reviewer is not assigned to this PR"), s0)
  ∧ ReassignReviewer "pr-4" "u9" s0
    = (Fail (ServiceError ErrNotFound "old reviewer not found"), s0)
  ∧ ReassignReviewer "pr-5" "u7" s0 = (Fail noCandidate, s0).
Proof.
  destruct (ReassignReviewer_precedence "pr-0" "u2" s0) as [Habsent _].
  destruct (ReassignReviewer_precedence "pr-3" "u9" s0) as [_ Hpr3].
  destruct (Hpr3 pr3) as (Hmerged & _ & _); [reflexivity|].
  destruct (ReassignReviewer_precedence "pr-1" "u4" s0) as [_ Hpr1].
  destruct (Hpr1 pr1) as (_ & Hnotassigned & _); [reflexivity|].
  destruct (ReassignReviewer_precedence "pr-4" "u9" s0) as [_ Hpr4].
  destruct (Hpr4 pr4) as (_ & _ & Hunknown); [reflexivity|].
  destruct Hunknown as [Hunknown _]; [discriminate|by left|].
  destruct (ReassignReviewer_precedence "pr-5" "u7" s0) as [_ Hpr5].
  destruct (Hpr5 pr5) as (_ & _ & Hselect); [reflexivity|].
  destruct Hselect as [_ Hselect]; [discriminate|by left|].
  destruct (Hselect grace [frank; grace]) as [_ Hnone];
    [reflexivity..|].
  split; [apply Habsent; reflexivity|].
  split; [apply Hmerged; reflexivity|].
  split.
  { apply Hnotassigned; [discriminate|].
    intros Hin. apply elem_of_cons in Hin as [?|Hin]; [done|].
    by apply list_elem_of_singleton in Hin. }
  split; [apply Hunknown; reflexivity|].
  apply Hnone. reflexivity.
Defined.

Lemma ReassignReviewer_in_place_witness :
  ∃ pr i,
    storage.GetPullRequest (repo s0) "pr-1" = Ok (Some pr)
    ∧ AssignedReviewers pr !! i = Some "u2"
    ∧ (∀ j, j < i → AssignedReviewers pr !! j ≠ Some "u2")
    ∧ AssignedReviewers pr1_reassigned = <[i:="u4"]> (AssignedReviewers pr)
    ∧ AssignedReviewers pr1_reassigned !! i = Some "u4"
    ∧ length (AssignedReviewers pr1_reassigned)
      = length (AssignedReviewers pr)
    ∧ (∀ j, j ≠ i →
         AssignedReviewers pr1_reassigned !! j = AssignedReviewers pr !! j)
    ∧ PullRequestID pr1_reassigned = PullRequestID pr
    ∧ PullRequestName pr1_reassigned = PullRequestName pr
    ∧ AuthorID pr1_reassigned = AuthorID pr
    ∧ Status pr1_reassigned = Status pr
    ∧ CreatedAt pr1_reassigned = CreatedAt pr
    ∧ MergedAt pr1_reassigned = MergedAt pr
    ∧ storage.UpdatePullRequest (repo s0) pr1_reassigned
      = (None, repo s0_reassigned).
Proof.
  apply (ReassignReviewer_in_place "pr-1" "u2" s0 pr1_reassigned "u4"
           s0_reassigned).
  reflexivity.
Defined.

Lemma sample_user_ids_distinct teamName teamMembers :
  storage.GetUsersByTeam (repo s0) teamName = Ok teamMembers →
  NoDup (UserID <$> teamMembers).
Proof.
  intros [= <-].
  eapply sublist_NoDup; [|apply fmap_sublist, sublist_filter].
  apply (bool_decide_unpack _). vm_compute. exact I.
Defined.

Lemma reviewer_list_invariant_witness :
  reviewers_ok pr9 ∧ reviewers_ok pr1_reassigned.
Proof.
  destruct (reviewer_list_invariant s0) as [Hcreate Hreassign].
  split.
  - apply (Hcreate 200%Z "pr-9" "New work" "u1" pr9
             (CreatePullRequest 200%Z "pr-9" "New work" "u1" s0).2).
    + exact sample_user_ids_distinct.
    + reflexivity.
  - apply (Hreassign "pr-1" "u2" pr1 pr1_reassigned "u4" s0_reassigned).
    + reflexivity.
    + split; [|split].
      * intros Hin. apply elem_of_cons in Hin as [?|Hin]; [done|].
        by apply list_elem_of_singleton in Hin.
      * apply (bool_decide_unpack _). vm_compute. exact I.
      * simpl. lia.
    + reflexivity.
Defined.


End examples.

(* ===================================================================== *)
(** ** Least-loaded replacement and order independence *)
(* ===================================================================== *)

Section replacement_load.
Context `{ST : storage.Storage} `{RS : rand.Source} `{SO : sort.Sorter}.
Import service.

Lemma filter_ext_in {A} (P Q : A → Prop) `{∀ x, Decision (P x)}
    `{∀ x, Decision (Q x)} (l : list A) :
  (∀ x, x ∈ l → P x ↔ Q x) → filter P l = filter Q l.
Proof.
  induction l as [|a l IH]; intros Hext; [done|].
  rewrite !filter_cons.
  assert (P a ↔ Q a) as Ha by (apply Hext; left).
  rewrite IH by (intros x Hx; apply Hext; by right).
  repeat case_decide; tauto.
Qed.

Lemma filter_none {A} (P : A → Prop) `{∀ x, Decision (P x)} (l : list A) :
  (∀ x, x ∈ l → ¬ P x) → filter P l = [].
Proof.
  induction l as [|a l IH]; intros Hnone; [done|].
  rewrite filter_cons, decide_False by (apply Hnone; left).
  apply IH. intros x Hx. apply Hnone. by right.
Qed.

(** The state of the minimum-load loop after a non-empty prefix [p] whose
    counts never equal the sentinel: the least count of [p] and the
    members of [p] that have it, in order. *)
Lemma min_loop_prefix counts (p : list User) :
  (∀ c, c ∈ p → count_of counts (UserID c) ≠ (-1)%Z) →
  p ≠ [] →
  let '(minCount, selected) := min_loop counts p in
  minCount ≠ (-1)%Z
  ∧ (∀ c, c ∈ p → (minCount ≤ count_of counts (UserID c))%Z)
  ∧ selected ≠ []
  ∧ selected = filter (λ c, count_of counts (UserID c) = minCount) p.
Proof.
  induction p as [|c p IH] using rev_ind; [done|].
  intros Hsent _. unfold min_loop in *. rewrite foldl_snoc.
  assert (count_of counts (UserID c) ≠ (-1)%Z) as Hc
    by (apply Hsent, elem_of_app; right; left).
  destruct p as [|c0 p0].
  { simpl. split; [done|]. split.
    - intros c' ->%list_elem_of_singleton. lia.
    - split; [done|]. rewrite filter_cons, decide_True by done. done. }
  destruct (foldl (min_step counts) ((-1)%Z, []) (c0 :: p0))
    as [minCount selected] eqn:E.
  destruct IH as (Hm & Hle & Hne & Hsel);
    [intros c' Hc'; apply Hsent, elem_of_app; by left|done|].
  unfold min_step. case_decide as Hlt.
  - destruct Hlt as [?|Hlt]; [done|]. split; [done|]. split.
    + intros c' [Hc'| ->%list_elem_of_singleton]%elem_of_app; [|lia].
      specialize (Hle c' Hc'). lia.
    + split; [done|]. rewrite filter_app.
      rewrite (filter_cons _ c []), decide_True by done.
      assert (filter (λ c1, count_of counts (UserID c1)
                            = count_of counts (UserID c)) (c0 :: p0) = [])
        as ->; [|done].
      apply filter_none. intros c' Hc' E'.
      specialize (Hle c' Hc'). lia.
  - case_decide as Heq.
    + split; [done|]. split.
      * intros c' [Hc'| ->%list_elem_of_singleton]%elem_of_app; [auto|lia].
      * split; [by destruct selected|]. rewrite filter_app, Hsel.
        by rewrite (filter_cons _ c []), decide_True by done.
    + split; [done|]. split.
      * intros c' [Hc'| ->%list_elem_of_singleton]%elem_of_app; [auto|lia].
      * split; [done|]. rewrite filter_app, Hsel.
        rewrite (filter_cons _ c []), decide_False by done.
        by rewrite app_nil_r.
Qed.

Lemma min_loop_least counts (candidates : list User) c :
  (∀ c, c ∈ candidates → count_of counts (UserID c) ≠ (-1)%Z) →
  c ∈ (min_loop counts candidates).2
  ↔ c ∈ candidates
    ∧ ∀ c', c' ∈ candidates →
        (count_of counts (UserID c) ≤ count_of counts (UserID c'))%Z.
Proof.
  intros Hsent.
  destruct (decide (candidates = [])) as [->|Hne].
  { simpl. rewrite elem_of_nil. tauto. }
  pose proof (min_loop_prefix counts candidates Hsent Hne) as Hp.
  destruct (min_loop counts candidates) as [minCount selected]; simpl.
  destruct Hp as (_ & Hle & Hsel_ne & ->).
  rewrite list_elem_of_filter. split.
  - intros [<- Hc]. split; [done|]. auto.
  - intros [Hc Hmin]. split; [|done].
    destruct (filter _ _) as [|c0 l0] eqn:E; [done|].
    assert (c0 ∈ filter (λ c1, count_of counts (UserID c1) = minCount)
                        candidates) as Hc0 by (rewrite E; left).
    apply list_elem_of_filter in Hc0 as [Hc0 Hin0].
    specialize (Hmin c0 Hin0). specialize (Hle c Hc). lia.
Qed.

(** X1. When no candidate's count equals the loop's start value -1, the
    tie group computed by the minimum-load loop of [findReplacement] is
    exactly the candidates whose count is least among all candidates, in
    candidate order. *)
Theorem min_loop_tie_group counts (candidates : list User) :
  (∀ c, c ∈ candidates → count_of counts (UserID c) ≠ (-1)%Z) →
  (min_loop counts candidates).2
  = filter (λ c, Forall (λ c', (count_of counts (UserID c)
                                ≤ count_of counts (UserID c'))%Z) candidates)
           candidates.
Proof.
  intros Hsent.
  destruct (decide (candidates = [])) as [->|Hne]; [done|].
  pose proof (min_loop_prefix counts candidates Hsent Hne) as Hp.
  destruct (min_loop counts candidates) as [minCount selected] eqn:E; simpl.
  destruct Hp as (_ & Hle & Hsel_ne & ->).
  apply filter_ext_in. intros c Hc. rewrite Forall_forall. split.
  - intros <-. auto.
  - intros Hmin.
    destruct (filter _ _) as [|c0 l0] eqn:E0; [done|].
    assert (c0 ∈ filter (λ c1, count_of counts (UserID c1) = minCount)
                        candidates) as Hc0 by (rewrite E0; left).
    apply list_elem_of_filter in Hc0 as [Hc0 Hin0].
    specialize (Hmin c0 Hin0). specialize (Hle c Hc). lia.
Qed.

(** X2. When the review counts are retrieved and none of them equals -1,
    a successful [findReplacement] returns the id of a candidate whose
    count is least among all candidates. *)
Theorem findReplacement_least_loaded
    teamMembers authorID currentReviewers s counts id s' :
  storage.GetReviewCounts (repo s)
    (UserID <$> replacements_of teamMembers authorID currentReviewers)
    = Ok counts →
  (∀ c, c ∈ replacements_of teamMembers authorID currentReviewers →
        count_of counts (UserID c) ≠ (-1)%Z) →
  findReplacement teamMembers authorID currentReviewers s = (Done id, s') →
  ∃ c, c ∈ replacements_of teamMembers authorID currentReviewers
       ∧ id = UserID c
       ∧ ∀ c', c' ∈ replacements_of teamMembers authorID currentReviewers →
           (count_of counts (UserID c) ≤ count_of counts (UserID c'))%Z.
Proof.
  intros Hcounts Hsent Hfind. unfold findReplacement in Hfind.
  case_decide as Hlen; [done|]. rewrite Hcounts in Hfind.
  case_decide as Hsel; [|done].
  destruct (pick_spec (min_loop counts
             (replacements_of teamMembers authorID currentReviewers)).2 s)
    as (c & Hc & Hpick).
  { intros E. rewrite E in Hsel. simpl in Hsel. lia. }
  rewrite Hpick in Hfind. simplify_eq.
  apply min_loop_least in Hc as [Hc Hmin]; [|done]. eauto.
Qed.

(** X3. With the review counts retrieved, the result of [assignReviewers]
    does not depend on the order in which the team members are listed. *)
Theorem assignReviewers_order_independent
    teamMembers1 teamMembers2 authorID s counts :
  teamMembers1 ≡ₚ teamMembers2 →
  storage.GetReviewCounts (repo s)
    (UserID <$> candidates_of teamMembers1 authorID) = Ok counts →
  storage.GetReviewCounts (repo s)
    (UserID <$> candidates_of teamMembers2 authorID) = Ok counts →
  assignReviewers teamMembers1 authorID s
  = assignReviewers teamMembers2 authorID s.
Proof.
  intros Hperm Hc1 Hc2.
  assert (candidates_of teamMembers1 authorID
          ≡ₚ candidates_of teamMembers2 authorID) as Hcand.
  { unfold candidates_of. by rewrite Hperm. }
  unfold assignReviewers.
  case_decide as Hl1; case_decide as Hl2.
  - done.
  - exfalso. apply Hl2. by rewrite <-Hcand.
  - exfalso. apply Hl1. by rewrite Hcand.
  - rewrite Hc1, Hc2. f_equal. rewrite !fmap_take. f_equal.
    apply (sorted_candidate_ids counts).
    + rewrite sort.Slice_perm. by rewrite Hcand.
    + eapply StronglySorted_fmap; [|apply sort.Slice_sorted, less_swo].
      intros a b Hab. by apply less_false.
Qed.

End replacement_load.

(* ===================================================================== *)
(** ** Review counts of the in-memory repository *)
(* ===================================================================== *)

Section review_counts.

Lemma counts_list_step m L x :
  counts_list m L →
  counts_list (<[x := (default 0 (m !! x) + 1)%Z]> m) (L ++ [x]).
Proof.
  intros Hm id. destruct (decide (x = id)) as [->|Hne].
  - rewrite lookup_insert_eq. rewrite decide_True by set_solver.
    rewrite filter_app, length_app, (filter_cons _ id []).
    rewrite decide_True by done. simpl. rewrite Hm. f_equal.
    case_decide as Hin; simpl; [lia|].
    rewrite (filter_none (λ r, r = id) L); [simpl; lia|].
    intros y Hy Hyid. subst. done.
  - rewrite lookup_insert_ne by done. rewrite Hm.
    rewrite filter_app, (filter_cons _ x []).
    rewrite (decide_False (P := x = id)) by done.
    rewrite app_nil_r.
    destruct (decide (id ∈ L)) as [Hin|Hin].
    + rewrite decide_True by set_solver. done.
    + rewrite decide_False; [done|]. set_solver.
Qed.

Lemma counts_list_fold m L l :
  counts_list m L →
  counts_list (foldl (λ c id, <[id := (default 0 (c !! id) + 1)%Z]> c) m l)
              (L ++ l).
Proof.
  revert m L. induction l as [|x l IH]; intros m L Hm; simpl.
  - by rewrite app_nil_r.
  - rewrite (assoc_L _ L [x] l : L ++ x :: l = (L ++ [x]) ++ l).
    apply IH. by apply counts_list_step.
Qed.

Lemma counts_list_rows m L rows :
  counts_list m L →
  counts_list (foldl persistence.count_row m rows)
    (L ++ concat (AssignedReviewers <$>
                    filter (λ pr, Status pr = StatusOpen) rows)).
Proof.
  revert m L. induction rows as [|row rows IH]; intros m L Hm; simpl.
  - by rewrite app_nil_r.
  - rewrite filter_cons. unfold persistence.count_row at 2.
    case_decide as Hopen.
    + rewrite fmap_cons. simpl. rewrite (assoc_L (++)).
      apply IH. by apply counts_list_fold.
    + by apply IH.
Qed.

Lemma fill_zero_lookup (m : gmap string Z) (ids : list string) id :
  foldl (λ c userID, match c !! userID with
                     | Some _ => c
                     | None => <[userID := 0%Z]> c
                     end) m ids !! id
  = match m !! id with
    | Some v => Some v
    | None => if decide (id ∈ ids) then Some 0%Z else None
    end.
Proof.
  revert m. induction ids as [|x ids IH]; intros m; simpl.
  - by destruct (m !! id).
  - rewrite IH. destruct (decide (x = id)) as [->|Hne].
    + destruct (m !! id) as [v|] eqn:E.
      * by rewrite E.
      * rewrite lookup_insert_eq. rewrite decide_True by left. done.
    + assert ((match m !! x with
               | Some _ => m
               | None => <[x := 0%Z]> m
               end) !! id = m !! id) as ->.
      { destruct (m !! x); [done|]. by rewrite lookup_insert_ne. }
      destruct (m !! id); [done|].
      destruct (decide (id ∈ ids)) as [Hin|Hin].
      * rewrite decide_True by (by right). done.
      * rewrite decide_False; [done|]. set_solver.
Qed.

(** What a successful count query of the in-memory repository holds for
    an id. *)
Lemma GetReviewCounts_lookup db userIDs counts id :
  persistence.GetReviewCounts db userIDs = Ok counts →
  userIDs ≠ [] →
  counts !! id
  = if decide (id ∈ open_reviewers db ∨ id ∈ userIDs)
    then Some (Z.of_nat (open_reviews db id)) else None.
Proof.
  unfold persistence.GetReviewCounts, persistence.query.
  intros Hget Hne. rewrite decide_False in Hget
    by (intros E; by apply nil_length_inv in E).
  case_decide; [done|]. injection Hget as <-.
  rewrite fill_zero_lookup.
  pose proof (counts_list_rows ∅ [] (persistence.pull_requests db)) as Hrows.
  rewrite app_nil_l in Hrows. rewrite Hrows by (intros id'; by rewrite lookup_empty).
  unfold open_reviews, open_reviewers.
  destruct (decide (id ∈ concat _)) as [Hin|Hin].
  - rewrite decide_True by (by left). done.
  - rewrite (filter_none (λ r, r = id));
      [|intros y Hy Hyid; subst; done]. simpl.
    destruct (decide (id ∈ userIDs)).
    + rewrite decide_True by (by right). done.
    + rewrite decide_False by tauto. done.
Qed.

End review_counts.

Section in_memory.
Context `{RS : rand.Source}.
Import service.

(** X10. [GetReviewCounts] of the in-memory repository: an empty id list
    is answered with the empty map before any query, so even when the
    query would fail; otherwise a failing query is an error, and a
    successful one maps every requested id to the number of times the
    OPEN rows list it (0 when none does) and holds no other value than
    such a count. *)
Theorem persistence_GetReviewCounts_contract db userIDs :
  persistence.GetReviewCounts db [] = Ok ∅
  ∧ (userIDs ≠ [] →
     "GetReviewCounts" ∈ persistence.failing db →
     persistence.GetReviewCounts db userIDs
     = Err (RepoError "GetReviewCounts"))
  ∧ (userIDs ≠ [] →
     "GetReviewCounts" ∉ persistence.failing db →
     ∃ counts,
       persistence.GetReviewCounts db userIDs = Ok counts
       ∧ (∀ id, id ∈ userIDs →
            counts !! id = Some (Z.of_nat (open_reviews db id)))
       ∧ (∀ id c, counts !! id = Some c →
            c = Z.of_nat (open_reviews db id) ∧ (0 ≤ c)%Z)).
Proof.
  split; [done|]. split.
  - intros Hne Hfail. unfold persistence.GetReviewCounts, persistence.query.
    rewrite decide_False by (intros E; by apply nil_length_inv in E).
    by rewrite decide_True.
  - intros Hne Hok.
    destruct (persistence.GetReviewCounts db userIDs) as [counts|e] eqn:Hget.
    + exists counts. split; [done|]. split.
      * intros id Hid. rewrite (GetReviewCounts_lookup _ _ _ _ Hget Hne).
        by rewrite decide_True by (by right).
      * intros id c. rewrite (GetReviewCounts_lookup _ _ _ _ Hget Hne).
        case_decide; [|done]. intros [= <-]. split; [done|lia].
    + exfalso. unfold persistence.GetReviewCounts, persistence.query in Hget.
      rewrite decide_False in Hget
        by (intros E; by apply nil_length_inv in E).
      by rewrite decide_False in Hget.
Qed.

(** X11. On the in-memory repository with a working count query, a
    successful [findReplacement] returns a candidate that the OPEN rows
    list as reviewer no more often than any other candidate. *)
Theorem findReplacement_fewest_open_reviews
    teamMembers authorID currentReviewers (s : Service) id s' :
  "GetReviewCounts" ∉ persistence.failing (repo s) →
  findReplacement teamMembers authorID currentReviewers s = (Done id, s') →
  ∃ c, c ∈ replacements_of teamMembers authorID currentReviewers
       ∧ id = UserID c
       ∧ ∀ c', c' ∈ replacements_of teamMembers authorID currentReviewers →
           open_reviews (repo s) (UserID c)
           ≤ open_reviews (repo s) (UserID c').
Proof.
  intros Hok Hfind. unfold findReplacement in Hfind.
  case_decide as Hlen; [done|].
  set (candidates := replacements_of teamMembers authorID currentReviewers)
    in *.
  assert (UserID <$> candidates ≠ []) as Hne.
  { intros E. apply Hlen. apply fmap_nil_inv in E. by rewrite E. }
  destruct (storage.GetReviewCounts (repo s) (UserID <$> candidates))
    as [counts|e] eqn:Hget.
  - assert (∀ c, c ∈ candidates →
        count_of counts (UserID c)
        = Z.of_nat (open_reviews (repo s) (UserID c))) as Hcount.
    { intros c Hc. unfold count_of.
      rewrite (GetReviewCounts_lookup _ _ _ _ Hget Hne).
      rewrite decide_True; [done|]. right. by apply list_elem_of_fmap_2. }
    case_decide as Hsel; [|done].
    destruct (pick_spec (min_loop counts candidates).2 s)
      as (c & Hc & Hpick).
    { intros E. rewrite E in Hsel. simpl in Hsel. lia. }
    rewrite Hpick in Hfind. simplify_eq.
    apply min_loop_least in Hc as [Hc Hmin].
    + exists c. split; [done|]. split; [done|].
      intros c' Hc'. specialize (Hmin c' Hc').
      rewrite !Hcount in Hmin by done. lia.
    + intros c' Hc'. rewrite Hcount by done. lia.
  - exfalso. simpl in Hget.
    unfold persistence.GetReviewCounts, persistence.query in Hget.
    rewrite decide_False in Hget
      by (intros E; by apply nil_length_inv in E).
    by rewrite decide_False in Hget.
Qed.


(** X13. [UpdatePullRequest] of the in-memory repository never adds,
    removes or renames a row and never changes a creation time or a
    user; for an id that has no row it reports success and changes
    nothing. *)
Theorem persistence_update_frame db pr :
  let db' := (persistence.UpdatePullRequest db pr).2 in
  PullRequestID <$> persistence.pull_requests db'
  = PullRequestID <$> persistence.pull_requests db
  ∧ CreatedAt <$> persistence.pull_requests db'
    = CreatedAt <$> persistence.pull_requests db
  ∧ persistence.users db' = persistence.users db
  ∧ (PullRequestID pr ∉ PullRequestID <$> persistence.pull_requests db →
     "UpdatePullRequest" ∉ persistence.failing db →
     persistence.UpdatePullRequest db pr = (None, db)).
Proof.
  unfold persistence.UpdatePullRequest, persistence.exec.
  assert (∀ rows : list PullRequest,
    PullRequestID <$> (persistence.update_row pr <$> rows)
    = PullRequestID <$> rows
    ∧ CreatedAt <$> (persistence.update_row pr <$> rows)
      = CreatedAt <$> rows) as Hrows.
  { induction rows as [|row rows [IH1 IH2]]; [done|].
    rewrite !fmap_cons, IH1, IH2.
    assert (PullRequestID (persistence.update_row pr row) = PullRequestID row
            ∧ CreatedAt (persistence.update_row pr row) = CreatedAt row)
      as [-> ->]; [|done].
    unfold persistence.update_row. by case_decide. }
  case_decide as Hfail; simpl.
  - repeat split; done.
  - destruct (Hrows (persistence.pull_requests db)) as [H1 H2].
    repeat split; try done.
    intros Habsent _. f_equal. destruct db as [us rows fl]. simpl in *.
    f_equal. clear H1 H2 Hrows.
    induction rows as [|row rows IH]; [done|].
    rewrite fmap_cons in Habsent. rewrite fmap_cons.
    rewrite IH by (intros Hin; apply Habsent; by right).
    unfold persistence.update_row. rewrite decide_False; [done|].
    intros E. apply Habsent. rewrite <-E. by left.
Qed.

End in_memory.

(* ===================================================================== *)
(** ** More of the pull-request lifecycle *)
(* ===================================================================== *)

Section lifecycle_more.
Context `{ST : storage.Storage} `{RS : rand.Source} `{SO : sort.Sorter}.
Import service.

(** X4. [CreatePullRequest] checks in this order: an id already taken is
    [PR_EXISTS] whoever the author is, then an unknown author is
    [NOT_FOUND], both leaving the service state untouched; and a created
    pull request carries the given id, title and author, is OPEN with
    creation time [now] and no merge time, lists the reviewers chosen
    from the author's team, and is the value handed to the repository. *)
Theorem CreatePullRequest_contract now prID prName authorID s :
  (storage.PullRequestExists (repo s) prID = Ok true →
     CreatePullRequest now prID prName authorID s
     = (Fail (ServiceError ErrPRExists "PR id already exists"), s))
  ∧ (storage.PullRequestExists (repo s) prID = Ok false →
     storage.GetUser (repo s) authorID = Ok None →
     CreatePullRequest now prID prName authorID s
     = (Fail (ServiceError ErrNotFound "author not found"), s))
  ∧ (∀ pr s',
       CreatePullRequest now prID prName authorID s = (Done pr, s') →
       ∃ author teamMembers,
         storage.PullRequestExists (repo s) prID = Ok false
         ∧ storage.GetUser (repo s) authorID = Ok (Some author)
         ∧ storage.GetUsersByTeam (repo s) (TeamName author) = Ok teamMembers
         ∧ pr = mkPullRequest prID prName authorID StatusOpen
                  (assignReviewers teamMembers authorID s).1 (Some now) None
         ∧ rng s' = rng (assignReviewers teamMembers authorID s).2
         ∧ storage.CreatePullRequest (repo s) pr = (None, repo s')).
Proof.
  split; [|split].
  - intros Hex. unfold_service. by rewrite Hex.
  - intros Hex Hau. unfold_service. by rewrite Hex, Hau.
  - intros pr s' Hrun. unfold_service.
    destruct (storage.PullRequestExists (repo s) prID) as [[|]|e] eqn:Hex;
      [done| |done].
    destruct (storage.GetUser (repo s) authorID) as [[author|]|e] eqn:Hau;
      [|done..].
    destruct (storage.GetUsersByTeam (repo s) (TeamName author))
      as [teamMembers|e] eqn:Hteam; [|done].
    pose proof (assignReviewers_repo teamMembers authorID s) as Hrepo.
    destruct (assignReviewers teamMembers authorID s) as [reviewers s1]
      eqn:Hassign.
    simpl in Hrepo.
    destruct (storage.CreatePullRequest (repo s1) _) as [[e|] r'] eqn:Hw;
      [done|]. simplify_eq.
    exists author, teamMembers. rewrite Hrepo in Hw. rewrite Hassign. simpl.
    repeat split; done.
Qed.

(** X5. [MergePullRequest] on an absent pull request is [NOT_FOUND] with
    the state untouched; a successful merge returns the stored pull
    request with its id, title, author, reviewer list and creation time
    unchanged and status MERGED, never touches the generator, and either
    leaves the repository alone or hands the returned value to
    [UpdatePullRequest]. *)
Theorem MergePullRequest_frame now prID s :
  (storage.GetPullRequest (repo s) prID = Ok None →
     MergePullRequest now prID s
     = (Fail (ServiceError ErrNotFound "PR not found"), s))
  ∧ (∀ pr' s',
       MergePullRequest now prID s = (Done pr', s') →
       ∃ pr,
         storage.GetPullRequest (repo s) prID = Ok (Some pr)
         ∧ PullRequestID pr' = PullRequestID pr
         ∧ PullRequestName pr' = PullRequestName pr
         ∧ AuthorID pr' = AuthorID pr
         ∧ AssignedReviewers pr' = AssignedReviewers pr
         ∧ CreatedAt pr' = CreatedAt pr
         ∧ Status pr' = StatusMerged
         ∧ rng s' = rng s
         ∧ (s' = s
            ∨ storage.UpdatePullRequest (repo s) pr' = (None, repo s'))).
Proof.
  split.
  - intros Hget. unfold_service. by rewrite Hget.
  - intros pr' s' Hrun. unfold_service.
    destruct (storage.GetPullRequest (repo s) prID) as [[pr|]|e] eqn:Hget;
      [|done..].
    exists pr. case_decide as Hst.
    + simplify_eq. repeat split; auto.
    + destruct (storage.UpdatePullRequest (repo s) _) as [[e|] r'] eqn:Hw;
        [done|]. simplify_eq. repeat split; auto.
Qed.

(** X6. Reassignment is frozen by a merge: once [MergePullRequest] has
    succeeded and the repository reads back the pull request it
    returned, [ReassignReviewer] on it fails with [PR_MERGED] for every
    reviewer id and changes nothing. *)
Theorem merge_then_reassign now prID oldReviewerID s pr1 s1 :
  MergePullRequest now prID s = (Done pr1, s1) →
  storage.GetPullRequest (repo s1) prID = Ok (Some pr1) →
  ReassignReviewer prID oldReviewerID s1
  = (Fail (ServiceError ErrPRMerged "cannot reassign on merged PR"), s1).
Proof.
  intros Hmerge Hread.
  assert (Status pr1 = StatusMerged) as Hst.
  { unfold_service.
    destruct (storage.GetPullRequest (repo s) prID) as [[pr|]|e];
      [|done..].
    case_decide; [by simplify_eq|].
    destruct (storage.UpdatePullRequest _ _) as [[e|] r']; by simplify_eq. }
  unfold_service. rewrite Hread. by rewrite decide_True.
Qed.

(** X7. A successful [ReassignReviewer] acts on an OPEN pull request and
    replaces a known user: the new reviewer is an active member of the
    old reviewer's team, differs from the old reviewer and from the
    author, was not on the pull request before, and, when the list had no
    duplicates, the old reviewer is no longer on it. *)
Theorem ReassignReviewer_replacement
    prID oldReviewerID s pr' newReviewerID s' :
  ReassignReviewer prID oldReviewerID s = (Done (pr', newReviewerID), s') →
  newReviewerID ≠ oldReviewerID
  ∧ ∃ pr oldReviewer teamMembers m,
      storage.GetPullRequest (repo s) prID = Ok (Some pr)
      ∧ Status pr ≠ StatusMerged
      ∧ storage.GetUser (repo s) oldReviewerID = Ok (Some oldReviewer)
      ∧ storage.GetUsersByTeam (repo s) (TeamName oldReviewer)
        = Ok teamMembers
      ∧ m ∈ teamMembers ∧ IsActive m = true ∧ UserID m = newReviewerID
      ∧ newReviewerID ≠ AuthorID pr
      ∧ (newReviewerID ∉ AssignedReviewers pr)
      ∧ newReviewerID ∈ AssignedReviewers pr'
      ∧ (NoDup (AssignedReviewers pr) →
         oldReviewerID ∉ AssignedReviewers pr').
Proof.
  intros Hrun. unfold_service.
  destruct (storage.GetPullRequest (repo s) prID) as [[pr|]|e] eqn:Hget;
    [|done..].
  case_decide as Hst; [done|].
  destruct (reviewer_index oldReviewerID (AssignedReviewers pr))
    as [i|] eqn:Hidx; [|done].
  destruct (storage.GetUser (repo s) oldReviewerID)
    as [[oldReviewer|]|e] eqn:Huser; [|done..].
  destruct (storage.GetUsersByTeam (repo s) (TeamName oldReviewer))
    as [teamMembers|e] eqn:Hteam; [|done].
  destruct (findReplacement teamMembers (AuthorID pr)
              (AssignedReviewers pr) s) as [[new|e|] s1] eqn:Hfind;
    [|done..].
  destruct (storage.UpdatePullRequest (repo s1) _) as [[e|] r'];
    [done|]. simplify_eq.
  apply reviewer_index_Some in Hidx as [Hi Hleast].
  apply findReplacement_candidate in Hfind as (m & Hm & ->).
  apply replacements_of_spec in Hm as (Hm & Hact & Hauth & Hfresh).
  assert (i < length (AssignedReviewers pr)) as Hlt
    by by eapply lookup_lt_Some.
  split.
  { intros E. apply Hfresh. rewrite E. by eapply list_elem_of_lookup_2. }
  exists pr, oldReviewer, teamMembers, m. simpl.
  repeat split; try done.
  - by apply list_elem_of_insert.
  - intros Hnd Hin. apply list_elem_of_lookup in Hin as [j Hj].
    destruct (decide (j = i)) as [->|Hne].
    + rewrite list_lookup_insert_eq in Hj by done. simplify_eq.
      apply Hfresh. by eapply list_elem_of_lookup_2.
    + rewrite list_lookup_insert_ne in Hj by done.
      apply Hne. by eapply NoDup_lookup.
Qed.

(** X8. The same reviewer cannot be replaced twice: after a successful
    [ReassignReviewer] on a duplicate-free reviewer list, with the
    repository reading back the returned pull request, a second call for
    the same old reviewer fails with [NOT_ASSIGNED]. *)
Theorem reassign_twice prID oldReviewerID s pr pr' newReviewerID s' :
  storage.GetPullRequest (repo s) prID = Ok (Some pr) →
  NoDup (AssignedReviewers pr) →
  ReassignReviewer prID oldReviewerID s = (Done (pr', newReviewerID), s') →
  storage.GetPullRequest (repo s') prID = Ok (Some pr') →
  ReassignReviewer prID oldReviewerID s'
  = (Fail (ServiceError ErrNotAssigned
             "reviewer is not assigned to this PR"), s').
Proof.
  intros Hget Hnd Hrun Hread.
  assert (Status pr' ≠ StatusMerged ∧ oldReviewerID ∉ AssignedReviewers pr')
    as [Hst Hgone].
  { unfold_service. rewrite Hget in Hrun.
    case_decide as Hst; [done|].
    destruct (reviewer_index oldReviewerID (AssignedReviewers pr))
      as [i|] eqn:Hidx; [|done].
    destruct (storage.GetUser (repo s) oldReviewerID)
      as [[oldReviewer|]|e]; [|done..].
    destruct (storage.GetUsersByTeam (repo s) (TeamName oldReviewer))
      as [teamMembers|e]; [|done].
    destruct (findReplacement teamMembers (AuthorID pr)
                (AssignedReviewers pr) s) as [[new|e|] s1] eqn:Hfind;
      [|done..].
    destruct (storage.UpdatePullRequest (repo s1) _) as [[e|] r'];
      [done|]. simplify_eq. simpl. split; [done|].
    apply reviewer_index_Some in Hidx as [Hi Hleast].
    apply findReplacement_fresh in Hfind as [_ Hfresh].
    assert (i < length (AssignedReviewers pr)) as Hlt
      by by eapply lookup_lt_Some.
    intros Hin. apply list_elem_of_lookup in Hin as [j Hj].
    destruct (decide (j = i)) as [->|Hne].
    + rewrite list_lookup_insert_eq in Hj by done. simplify_eq.
      apply Hfresh. by eapply list_elem_of_lookup_2.
    + rewrite list_lookup_insert_ne in Hj by done.
      apply Hne. by eapply NoDup_lookup. }
  apply reviewer_index_None in Hgone.
  unfold_service. rewrite Hread. rewrite decide_False by done.
  by rewrite Hgone.
Qed.

(** X9. [randomSelection] returns the ids of [min maxCount n] candidates
    taken without replacement and touches nothing but the generator;
    when the candidates do not exceed [maxCount] it returns all their
    ids in order and leaves the generator alone too. *)
Theorem randomSelection_contract (candidates : list User) maxCount s :
  (∃ picked s',
     randomSelection candidates maxCount s = (UserID <$> picked, s')
     ∧ repo s' = repo s
     ∧ picked ⊆+ candidates
     ∧ length picked = min maxCount (length candidates))
  ∧ (length candidates ≤ maxCount →
     randomSelection candidates maxCount s = (UserID <$> candidates, s)).
Proof.
  split.
  - unfold randomSelection. case_decide as Hlen.
    + exists candidates, s. repeat split; [done|lia].
    + pose proof (Shuffle_perm (rng s) candidates) as Hperm.
      destruct (rand.Shuffle (rng s) candidates) as [shuffled g]; simpl in *.
      exists (take maxCount shuffled), (with_rng s g). repeat split.
      * rewrite <-Hperm. apply sublist_submseteq, sublist_take.
      * rewrite length_take. by rewrite Hperm.
  - intros Hlen. unfold randomSelection. by rewrite decide_True.
Qed.

End lifecycle_more.

Section load_accounting.
Context `{RS : rand.Source} `{SO : sort.Sorter}.
Import service.

Lemma open_reviews_app users rows1 rows2 failing id :
  open_reviews (persistence.mkDB users (rows1 ++ rows2) failing) id
  = open_reviews (persistence.mkDB users rows1 failing) id
    + open_reviews (persistence.mkDB users rows2 failing) id.
Proof.
  unfold open_reviews, open_reviewers. simpl.
  by rewrite filter_app, fmap_app, concat_app, filter_app, length_app.
Qed.

Lemma open_reviews_single users row failing id :
  open_reviews (persistence.mkDB users [row] failing) id
  = if decide (Status row = StatusOpen)
    then length (filter (λ r, r = id) (AssignedReviewers row)) else 0.
Proof.
  unfold open_reviews, open_reviewers. simpl.
  rewrite filter_cons. case_decide; simpl; [|done].
  by rewrite app_nil_r.
Qed.

Lemma open_reviews_cons users row rows failing id :
  open_reviews (persistence.mkDB users (row :: rows) failing) id
  = (if decide (Status row = StatusOpen)
     then length (filter (λ r, r = id) (AssignedReviewers row)) else 0)
    + open_reviews (persistence.mkDB users rows failing) id.
Proof.
  rewrite <-open_reviews_single with (users := users) (failing := failing).
  apply (open_reviews_app users [row] rows).
Qed.

(** X23. Creating a pull request adds to the review load: after a
    successful [CreatePullRequest] on the in-memory repository, every
    id is listed by the OPEN rows as often as before plus the number of
    times the new pull request lists it. *)
Theorem CreatePullRequest_adds_load
    now prID prName authorID (s : Service) pr s' id :
  CreatePullRequest now prID prName authorID s = (Done pr, s') →
  open_reviews (repo s') id
  = open_reviews (repo s) id
    + length (filter (λ r, r = id) (AssignedReviewers pr)).
Proof.
  intros Hrun. unfold_service.
  destruct (storage.PullRequestExists (repo s) prID) as [[|]|e];
    [done| |done].
  destruct (storage.GetUser (repo s) authorID) as [[author|]|e];
    [|done..].
  destruct (storage.GetUsersByTeam (repo s) (TeamName author))
    as [tm|e]; [|done].
  pose proof (assignReviewers_repo tm authorID s) as Hrepo.
  destruct (assignReviewers tm authorID s) as [reviewers s1].
  simpl in Hrepo.
  destruct (storage.CreatePullRequest (repo s1) _) as [[e|] r'] eqn:Hw;
    [done|]. simplify_eq. simpl.
  rewrite Hrepo in Hw. simpl in Hw.
  unfold persistence.CreatePullRequest, persistence.exec in Hw.
  case_decide; [done|]. case_decide; [done|]. injection Hw as <-.
  rewrite open_reviews_app, open_reviews_single. simpl.
  by destruct (repo s).
Qed.

(** X24. Merging releases the review load: after a successful
    [MergePullRequest] of an OPEN pull request on the in-memory
    repository with unique pull-request ids, every id is listed by the
    OPEN rows as often as before minus the number of times the merged
    pull request lists it. *)
Theorem MergePullRequest_releases_load
    now prID (s : Service) pr pr' s' id :
  storage.GetPullRequest (repo s) prID = Ok (Some pr) →
  Status pr = StatusOpen →
  NoDup (PullRequestID <$> persistence.pull_requests (repo s)) →
  MergePullRequest now prID s = (Done pr', s') →
  open_reviews (repo s') id
  + length (filter (λ r, r = id) (AssignedReviewers pr))
  = open_reviews (repo s) id.
Proof.
  intros Hget Hopen Hnd Hrun. unfold_service. rewrite Hget in Hrun.
  rewrite decide_False in Hrun by (rewrite Hopen; discriminate).
  destruct (storage.UpdatePullRequest (repo s) _) as [[e|] r'] eqn:Hw;
    [done|]. simplify_eq. simpl. simpl in Hw, Hget.
  unfold persistence.UpdatePullRequest, persistence.exec in Hw.
  case_decide; [done|]. injection Hw as <-.
  unfold persistence.GetPullRequest, persistence.query in Hget.
  case_decide; [done|]. injection Hget as Hhead.
  destruct (repo s) as [users rows failing]. simpl in *.
  clear -Hhead Hopen Hnd.
  induction rows as [|row rows IH]; [done|].
  rewrite fmap_cons in Hnd. apply NoDup_cons in Hnd as [Hrow Hnd].
  rewrite fmap_cons.
  rewrite !open_reviews_cons.
  rewrite filter_cons in Hhead.
  destruct (decide (PullRequestID row = prID)) as [Hid|Hid].
  - simpl in Hhead. injection Hhead as ->.
    assert (persistence.update_row (set_merged pr now) pr
            = set_merged pr now) as ->.
    { unfold persistence.update_row. rewrite decide_True by done.
      by destruct pr. }
    rewrite (decide_False (P := Status (set_merged pr now) = StatusOpen))
      by discriminate.
    rewrite (decide_True (P := Status pr = StatusOpen)) by done.
    assert (persistence.update_row (set_merged pr now) <$> rows = rows)
      as ->; [|lia].
    rewrite <-(list_fmap_id rows) at 2. apply list_fmap_ext.
    intros i row' Hrow'. unfold persistence.update_row.
    rewrite decide_False; [done|]. simpl. intros E. apply Hrow.
    rewrite <-E. apply list_elem_of_fmap_2. by eapply list_elem_of_lookup_2.
  - assert (PullRequestID pr = prID) as Hpr.
    { apply head_Some_elem_of in Hhead.
      apply list_elem_of_filter in Hhead. tauto. }
    assert (persistence.update_row (set_merged pr now) row = row) as ->.
    { unfold persistence.update_row. rewrite decide_False; [done|].
      simpl. congruence. }
    specialize (IH Hhead Hnd). lia.
Qed.

End load_accounting.

(* ===================================================================== *)
(** ** Answers to failures, configuration *)
(* ===================================================================== *)

Section answers.
Context `{ST : storage.Storage} `{RS : rand.Source} `{SO : sort.Sorter}.
Import service.

(** X14. How a failed [ReassignReviewer] is answered: a failure is
    either an error that one of its repository calls returned, passed
    on unchanged, or one of the service's own four errors, which
    [handleServiceError] answers with 404 ([NOT_FOUND]) or 409
    ([PR_MERGED], [NOT_ASSIGNED], [NO_CANDIDATE]) and the error's own
    code and message, the repository being left as it was. *)
Theorem ReassignReviewer_failure_answer prID oldReviewerID s e s' :
  ReassignReviewer prID oldReviewerID s = (Fail e, s') →
  (storage.GetPullRequest (repo s) prID = Err e
   ∨ storage.GetUser (repo s) oldReviewerID = Err e
   ∨ (∃ oldReviewer,
        storage.GetUser (repo s) oldReviewerID = Ok (Some oldReviewer)
        ∧ storage.GetUsersByTeam (repo s) (TeamName oldReviewer) = Err e)
   ∨ (∃ pr', (storage.UpdatePullRequest (repo s) pr').1 = Some e))
  ∨ (∃ code msg,
       e = ServiceError code msg
       ∧ code ∈ [ErrNotFound; ErrPRMerged; ErrNotAssigned; ErrNoCandidate]
       ∧ handlers.handleServiceError e
         = handlers.writeError
             (if decide (code = ErrNotFound) then 404 else 409) code msg
       ∧ repo s' = repo s).
Proof.
  intros Hrun. unfold_service.
  destruct (storage.GetPullRequest (repo s) prID) as [[pr|]|e0] eqn:Hget.
  - case_decide as Hst.
    { simplify_eq. right. eexists _, _. split; [done|].
      split; [set_solver|]. split; [reflexivity|done]. }
    destruct (reviewer_index oldReviewerID (AssignedReviewers pr))
      as [i|] eqn:Hidx.
    + destruct (storage.GetUser (repo s) oldReviewerID)
        as [[oldReviewer|]|e0] eqn:Huser.
      * destruct (storage.GetUsersByTeam (repo s) (TeamName oldReviewer))
          as [teamMembers|e0] eqn:Hteam.
        -- pose proof (findReplacement_repo teamMembers (AuthorID pr)
                         (AssignedReviewers pr) s) as Hrepo.
           destruct (findReplacement teamMembers (AuthorID pr)
                       (AssignedReviewers pr) s) as [[new|e0|] s1] eqn:Hfind;
             [| |done].
           ++ simpl in Hrepo.
              destruct (storage.UpdatePullRequest (repo s1) _)
                as [[e0|] r'] eqn:Hupd; [|done]. simplify_eq.
              left. do 3 right. eexists. rewrite <-Hrepo, Hupd. done.
           ++ simpl in Hrepo. simplify_eq. right.
              assert (e = noCandidate) as ->.
              { unfold findReplacement, fail, pick in Hfind.
                case_decide; [by simplify_eq|].
                destruct (storage.GetReviewCounts _ _).
                - case_decide; [|by simplify_eq].
                  destruct (rand.Intn _ _). by destruct (_ !! _).
                - destruct (rand.Intn _ _). by destruct (_ !! _). }
              eexists _, _. split; [done|]. split; [set_solver|].
              split; [reflexivity|done].
        -- simplify_eq. left. right. right. left. eauto.
      * simplify_eq. right. eexists _, _. split; [done|].
        split; [set_solver|]. split; [reflexivity|done].
      * simplify_eq. left. right. by left.
    + simplify_eq. right. eexists _, _. split; [done|].
      split; [set_solver|]. split; [reflexivity|done].
  - simplify_eq. right. eexists _, _. split; [done|].
    split; [set_solver|]. split; [reflexivity|done].
  - simplify_eq. left. by left.
Qed.

(** X15. [handleServiceError] answers with 400, 404, 409 or 500. It
    answers 500 exactly when the error is not a service error with one
    of the six declared codes; a service error keeps its code and
    message in the body; any other error is reported with code
    [NOT_FOUND] and the fixed message, whatever its own text. *)
Theorem handleServiceError_answer err :
  handlers.status (handlers.handleServiceError err) ∈ [400; 404; 409; 500]
  ∧ (handlers.status (handlers.handleServiceError err) = 500
     ↔ ¬ ∃ code msg,
           err = ServiceError code msg
           ∧ code ∈ [ErrTeamExists; ErrPRExists; ErrPRMerged;
                     ErrNotAssigned; ErrNoCandidate; ErrNotFound])
  ∧ (∀ code msg,
       err = ServiceError code msg →
       handlers.Error (handlers.handleServiceError err)
       = handlers.mkErrorDetail code msg)
  ∧ (∀ text,
       err = RepoError text →
       handlers.handleServiceError err
       = handlers.writeError 500 ErrNotFound "internal server error").
Proof.
  destruct err as [code msg|text]; simpl.
  - unfold handlers.writeError; simpl.
    repeat case_decide; simpl;
      (split; [set_solver|]); (split; [|split; [by intros ?? [= -> ->]|done]]).
    + split; [done|]. intros Hno. exfalso. apply Hno.
      eexists _, _. split; [done|]. set_solver.
    + split; [done|]. intros Hno. exfalso. apply Hno.
      eexists _, _. split; [done|]. set_solver.
    + split; [done|]. intros Hno. exfalso. apply Hno.
      eexists _, _. split; [done|]. set_solver.
    + split; [|done]. intros _ (c & m & [= <- <-] & Hin). set_solver.
  - split; [set_solver|]. split; [|split; [done|by intros ? _]].
    split; [|done]. by intros _ (c & m & ? & _).
Qed.

End answers.

Section configuration.

(** X16. [getEnv] treats a variable set to the empty string like an unset
    one, so with a non-empty default it never returns the empty string;
    hence no field of the loaded configuration is empty, whatever the
    environment. *)
Theorem config_never_empty env :
  (∀ key defaultValue,
     env !! key = Some "" →
     config.getEnv env key defaultValue
     = config.getEnv (delete key env) key defaultValue)
  ∧ (∀ key defaultValue,
       defaultValue ≠ "" → config.getEnv env key defaultValue ≠ "")
  ∧ config.Port (config.Server (config.Load env)) ≠ ""
  ∧ config.Host (config.Database (config.Load env)) ≠ ""
  ∧ config.DBPort (config.Database (config.Load env)) ≠ ""
  ∧ config.User (config.Database (config.Load env)) ≠ ""
  ∧ config.Password (config.Database (config.Load env)) ≠ ""
  ∧ config.Name (config.Database (config.Load env)) ≠ ""
  ∧ config.SSLMode (config.Database (config.Load env)) ≠ "".
Proof.
  assert (∀ key defaultValue,
    defaultValue ≠ "" → config.getEnv env key defaultValue ≠ "") as Hne.
  { intros key d Hd. unfold config.getEnv. by case_decide. }
  split.
  { intros key d Hkey. unfold config.getEnv, config.Getenv.
    by rewrite Hkey, lookup_delete_eq. }
  split; [exact Hne|].
  repeat split; apply Hne; done.
Qed.

End configuration.

(* ===================================================================== *)
(** ** Teams and users *)
(* ===================================================================== *)

Section teams_and_users.
Context `{ST : storage.Storage} `{TS : !team_storage.TeamStorage}
  `{RS : rand.Source} `{SO : sort.Sorter}.
Import service.

(** X17. [SetUserActive] on an unknown user is [NOT_FOUND] and writes
    nothing; on success the returned user is the stored one with only
    the active flag replaced, and that record is handed to [UpdateUser]
    (also when the flag does not change); the generator is untouched. *)
Theorem SetUserActive_contract userID isActive s :
  (storage.GetUser (repo s) userID = Ok None →
     team_service.SetUserActive userID isActive s
     = (Fail (ServiceError ErrNotFound "user not found"), s))
  ∧ (∀ user s',
       team_service.SetUserActive userID isActive s = (Done user, s') →
       ∃ stored,
         storage.GetUser (repo s) userID = Ok (Some stored)
         ∧ UserID user = UserID stored
         ∧ Username user = Username stored
         ∧ TeamName user = TeamName stored
         ∧ IsActive user = isActive
         ∧ rng s' = rng s
         ∧ team_storage.UpdateUser (repo s) user = (None, repo s')).
Proof.
  split.
  - intros Hget. unfold_team_service. by rewrite Hget.
  - intros user s' Hrun. unfold_team_service.
    destruct (storage.GetUser (repo s) userID) as [[stored|]|e] eqn:Hget;
      [|done..].
    destruct (team_storage.UpdateUser (repo s) _) as [[e|] r'] eqn:Hw;
      [done|]. simplify_eq. exists stored. by repeat split.
Qed.

(** X18. [CreateTeam] with a name that is taken fails with [TEAM_EXISTS]
    and writes nothing; when it succeeds the name was free, the
    repository accepted the team, and the value returned is what
    [GetTeam] of the repository reads afterwards, a missing team
    included. [GetTeam] turns a missing team into [NOT_FOUND]. *)
Theorem CreateTeam_contract t s :
  (team_storage.TeamExists (repo s) (team.TeamName t) = Ok true →
     team_service.CreateTeam t s
     = (Fail (ServiceError ErrTeamExists "team_name already exists"), s))
  ∧ (∀ created s',
       team_service.CreateTeam t s = (Done created, s') →
       team_storage.TeamExists (repo s) (team.TeamName t) = Ok false
       ∧ team_storage.CreateTeam (repo s) t = (None, repo s')
       ∧ team_storage.GetTeam (repo s') (team.TeamName t) = Ok created
       ∧ rng s' = rng s)
  ∧ (∀ teamName,
       team_storage.GetTeam (repo s) teamName = Ok None →
       team_service.GetTeam teamName s
       = (Fail (ServiceError ErrNotFound "team not found"), s)).
Proof.
  split; [|split].
  - intros Hex. unfold_team_service. by rewrite Hex.
  - intros created s' Hrun. unfold_team_service.
    destruct (team_storage.TeamExists (repo s) (team.TeamName t))
      as [[|]|e]; [done| |done].
    destruct (team_storage.CreateTeam (repo s) t) as [[e|] r'] eqn:Hw;
      [done|]. simpl in Hrun.
    destruct (team_storage.GetTeam r' (team.TeamName t)) as [created'|e]
      eqn:Hget; [|done].
    simplify_eq. by repeat split.
  - intros teamName Hget. unfold_team_service. by rewrite Hget.
Qed.

End teams_and_users.

Section chosen_ids.
Context `{ST : storage.Storage} `{RS : rand.Source} `{SO : sort.Sorter}.
Import service.

(** Every id [assignReviewers] returns is the id of one of its
    candidates. *)
Lemma assignReviewers_candidate teamMembers authorID s id :
  id ∈ (assignReviewers teamMembers authorID s).1 →
  ∃ m, m ∈ candidates_of teamMembers authorID ∧ UserID m = id.
Proof.
  unfold assignReviewers. case_decide as Hlen.
  { simpl. by intros ?%elem_of_nil. }
  destruct (storage.GetReviewCounts _ _) as [counts|e].
  - simpl. intros (m & -> & Hm)%list_elem_of_fmap.
    exists m. split; [|done].
    eapply elem_of_sublist in Hm; [|apply sublist_take].
    by rewrite sort.Slice_perm in Hm.
  - destruct (randomSelection_spec (candidates_of teamMembers authorID) 2 s)
      as (picked & s' & -> & _ & Hsub & _). simpl.
    intros (m & -> & Hm)%list_elem_of_fmap.
    exists m. split; [|done]. by eapply elem_of_submseteq.
Qed.

End chosen_ids.

Section in_memory_teams.
Context `{RS : rand.Source} `{SO : sort.Sorter}.
Import service.

#[local] Existing Instance memory.store.
#[local] Existing Instance memory.directory.

Lemma memory_GetUser_id (db : memory.DB) userID user :
  storage.GetUser db userID = Ok (Some user) → UserID user = userID.
Proof.
  simpl. unfold persistence.GetUser, persistence.query.
  case_decide; [done|]. intros [= Hhead].
  apply head_Some_elem_of in Hhead.
  apply list_elem_of_filter in Hhead. tauto.
Qed.

(** After an accepted [UpdateUser] every row with the user's id is the
    given record. *)
Lemma memory_UpdateUser_rows (db db' : memory.DB) user teamName members m :
  memory.UpdateUser db user = (None, db') →
  storage.GetUsersByTeam db' teamName = Ok members →
  m ∈ members → UserID m = UserID user → m = user.
Proof.
  unfold memory.UpdateUser. case_decide; [done|]. intros [= <-]. simpl.
  unfold persistence.GetUsersByTeam, persistence.query. simpl.
  case_decide; [done|]. intros [= <-].
  intros [_ Hm]%list_elem_of_filter Hid.
  apply list_elem_of_fmap in Hm as (row & -> & _).
  destruct (decide (UserID row = UserID user)); done.
Qed.

(** X20. Deactivation takes effect on the in-memory repository: once
    [SetUserActive id false] has succeeded, no pull request created
    afterwards lists that id as reviewer and no reassignment picks it. *)
Theorem deactivated_user_not_assigned userID (s : memory.Service) u s1 :
  team_service.SetUserActive userID false s = (Done u, s1) →
  (∀ now prID prName authorID pr s2,
     CreatePullRequest now prID prName authorID s1 = (Done pr, s2) →
     userID ∉ AssignedReviewers pr)
  ∧ (∀ prID oldReviewerID pr' newReviewerID s2,
       ReassignReviewer prID oldReviewerID s1
         = (Done (pr', newReviewerID), s2) →
       newReviewerID ≠ userID).
Proof.
  intros Hset.
  assert (∀ teamName members m,
    storage.GetUsersByTeam (repo s1) teamName = Ok members →
    m ∈ members → UserID m = userID → IsActive m = false) as Hoff.
  { unfold_team_service.
    destruct (storage.GetUser (repo s) userID) as [[stored|]|e] eqn:Hget;
      [|done..].
    destruct (team_storage.UpdateUser (repo s) _) as [[e|] r'] eqn:Hw;
      [done|]. simplify_eq.
    apply memory_GetUser_id in Hget.
    intros teamName members m Hteam Hm Hid.
    rewrite (memory_UpdateUser_rows _ _ _ _ _ m Hw Hteam Hm); [done|].
    simpl. congruence. }
  split.
  - intros now prID prName authorID pr s2 Hrun Hin. unfold_service.
    destruct (storage.PullRequestExists (repo s1) prID) as [[|]|e];
      [done| |done].
    destruct (storage.GetUser (repo s1) authorID) as [[author|]|e];
      [|done..].
    destruct (storage.GetUsersByTeam (repo s1) (TeamName author))
      as [tm|e] eqn:Hteam; [|done].
    destruct (assignReviewers tm authorID s1) as [reviewers s'] eqn:Hassign.
    destruct (storage.CreatePullRequest (repo s') _) as [[e|] r'];
      [done|]. simplify_eq. simpl in Hin.
    assert (userID ∈ (assignReviewers tm authorID s1).1) as Hin'
      by by rewrite Hassign.
    apply assignReviewers_candidate in Hin' as (m & Hm & Hid).
    apply candidates_of_spec in Hm as (Hm & Hact & _).
    rewrite (Hoff _ _ _ Hteam Hm Hid) in Hact. done.
  - intros prID oldReviewerID pr' newReviewerID s2 Hrun ->. unfold_service.
    destruct (storage.GetPullRequest (repo s1) prID) as [[pr|]|e];
      [|done..].
    case_decide; [done|].
    destruct (reviewer_index _ _); [|done].
    destruct (storage.GetUser (repo s1) oldReviewerID) as [[old|]|e];
      [|done..].
    destruct (storage.GetUsersByTeam (repo s1) (TeamName old))
      as [tm|e] eqn:Hteam; [|done].
    destruct (findReplacement tm (AuthorID pr) (AssignedReviewers pr) s1)
      as [[new|e|] s'] eqn:Hfind; [|done..].
    destruct (storage.UpdatePullRequest (repo s') _) as [[e|] r'];
      [done|]. simplify_eq.
    apply findReplacement_candidate in Hfind as (m & Hm & Hid).
    apply replacements_of_spec in Hm as (Hm & Hact & _).
    rewrite (Hoff _ _ _ Hteam Hm (eq_sym Hid)) in Hact. done.
Qed.

End in_memory_teams.

Section in_memory_queries.
Context `{RS : rand.Source}.
Import service.

#[local] Existing Instance memory.store.
#[local] Existing Instance memory.directory.







End in_memory_queries.

(* ===================================================================== *)
(** ** Review load under reassignment; ids taken once *)
(* ===================================================================== *)

Section load_moves.
Context `{RS : rand.Source} `{SO : sort.Sorter}.
Import service.

(** The share of one row in an id's review load. *)
Lemma update_row_same_id pr row :
  PullRequestID row ≠ PullRequestID pr → persistence.update_row pr row = row.
Proof. intros Hne. unfold persistence.update_row. by rewrite decide_False. Qed.

Lemma open_reviews_update users rows failing prID pr pr2 id :
  NoDup (PullRequestID <$> rows) →
  head (filter (λ row, PullRequestID row = prID) rows) = Some pr →
  PullRequestID pr2 = PullRequestID pr →
  open_reviews (persistence.mkDB users (persistence.update_row pr2 <$> rows)
                                 failing) id
  + (if decide (Status pr = StatusOpen)
     then length (filter (λ r, r = id) (AssignedReviewers pr)) else 0)
  = open_reviews (persistence.mkDB users rows failing) id
    + (if decide (Status pr2 = StatusOpen)
       then length (filter (λ r, r = id) (AssignedReviewers pr2)) else 0).
Proof.
  intros Hnd Hhead Hid.
  assert (PullRequestID pr = prID) as Hpr.
  { apply head_Some_elem_of in Hhead.
    apply list_elem_of_filter in Hhead. tauto. }
  induction rows as [|row rows IH]; [done|].
  rewrite fmap_cons in Hnd. apply NoDup_cons in Hnd as [Hrow Hnd].
  rewrite fmap_cons, !open_reviews_cons.
  rewrite filter_cons in Hhead.
  destruct (decide (PullRequestID row = prID)) as [Hrid|Hrid].
  - simpl in Hhead. injection Hhead as ->.
    assert (persistence.update_row pr2 <$> rows = rows) as ->.
    { rewrite <-(list_fmap_id rows) at 2. apply list_fmap_ext.
      intros i row' Hrow'. apply update_row_same_id. rewrite Hid.
      intros E. apply Hrow. rewrite <-E. apply list_elem_of_fmap_2.
      by eapply list_elem_of_lookup_2. }
    unfold persistence.update_row.
    rewrite (decide_True (P := PullRequestID pr = PullRequestID pr2))
      by done.
    simpl. lia.
  - rewrite update_row_same_id by congruence.
    specialize (IH Hnd Hhead). lia.
Qed.

Lemma occurrences_insert (l : list string) i old new id :
  l !! i = Some old →
  length (filter (λ r, r = id) (<[i:=new]> l))
  + (if decide (old = id) then 1 else 0)
  = length (filter (λ r, r = id) l) + (if decide (new = id) then 1 else 0).
Proof.
  intros Hi.
  assert (i < length l) as Hlt by by eapply lookup_lt_Some.
  rewrite (insert_take_drop l i new Hlt).
  rewrite <-(take_drop_middle l i old Hi) at 3.
  rewrite !filter_app, !length_app, !filter_cons.
  repeat case_decide; simpl; lia.
Qed.

(** X25. Reassignment moves the review load: after a successful
    [ReassignReviewer] on an OPEN pull request of the in-memory
    repository with unique pull-request ids, the OPEN rows list the new
    reviewer once more and the old reviewer once less than before, and
    every other id as often as before. *)
Theorem ReassignReviewer_moves_load
    prID oldReviewerID (s : Service) pr pr' newReviewerID s' id :
  storage.GetPullRequest (repo s) prID = Ok (Some pr) →
  Status pr = StatusOpen →
  NoDup (PullRequestID <$> persistence.pull_requests (repo s)) →
  ReassignReviewer prID oldReviewerID s = (Done (pr', newReviewerID), s') →
  open_reviews (repo s') id + (if decide (oldReviewerID = id) then 1 else 0)
  = open_reviews (repo s) id + (if decide (newReviewerID = id) then 1 else 0).
Proof.
  intros Hget Hopen Hnd Hrun. unfold_service. rewrite Hget in Hrun.
  rewrite decide_False in Hrun by (rewrite Hopen; discriminate).
  destruct (reviewer_index oldReviewerID (AssignedReviewers pr))
    as [i|] eqn:Hidx; [|done].
  destruct (storage.GetUser (repo s) oldReviewerID) as [[old|]|e];
    [|done..].
  destruct (storage.GetUsersByTeam (repo s) (TeamName old)) as [tm|e];
    [|done].
  pose proof (findReplacement_repo tm (AuthorID pr) (AssignedReviewers pr) s)
    as Hrepo.
  destruct (findReplacement tm (AuthorID pr) (AssignedReviewers pr) s)
    as [[new|e|] s1]; [|done..]. simpl in Hrepo.
  destruct (storage.UpdatePullRequest (repo s1) _) as [[e|] r'] eqn:Hw;
    [done|]. simplify_eq. simpl.
  rewrite Hrepo in Hw. simpl in Hw, Hget.
  unfold persistence.UpdatePullRequest, persistence.exec in Hw.
  case_decide; [done|]. injection Hw as <-.
  unfold persistence.GetPullRequest, persistence.query in Hget.
  case_decide; [done|]. injection Hget as Hhead.
  apply reviewer_index_Some in Hidx as [Hi _].
  destruct (repo s) as [users rows failing]. simpl in *.
  pose proof (open_reviews_update users rows failing prID pr
                (set_reviewer pr i newReviewerID) id Hnd Hhead eq_refl)
    as Hupd.
  simpl in Hupd. rewrite !decide_True in Hupd by done.
  pose proof (occurrences_insert (AssignedReviewers pr) i oldReviewerID
                newReviewerID id Hi) as Hocc.
  lia.
Qed.


End load_moves.

(* ===================================================================== *)
(** ** A team created and read back *)
(* ===================================================================== *)

Section team_round_trip.
Context `{SO : sort.Sorter}.
Import service.
#[local] Existing Instance memory.store.
#[local] Existing Instance memory.directory.



End team_round_trip.

(* ===================================================================== *)
(** ** The further properties on sample data *)
(* ===================================================================== *)

Section more_examples.
Import service sample.

(** Membership in a literal list, case by case. *)
Ltac each_member H :=
  repeat (apply elem_of_cons in H as [->|H]); [..|by apply elem_of_nil in H].

Lemma min_loop_tie_group_witness :
  (min_loop (counts_for ["u2"; "u3"; "u4"]) [bob; carol; dave; erin]).2
  = filter (λ c, Forall (λ c', (count_of (counts_for ["u2"; "u3"; "u4"])
                                         (UserID c)
                                ≤ count_of (counts_for ["u2"; "u3"; "u4"])
                                           (UserID c'))%Z)
                        [bob; carol; dave; erin])
           [bob; carol; dave; erin].
Proof.
  apply (min_loop_tie_group (counts_for ["u2"; "u3"; "u4"])
           [bob; carol; dave; erin]).
  intros c Hc. each_member Hc; vm_compute; discriminate.
Defined.

Lemma findReplacement_least_loaded_witness :
  ∃ c, c ∈ replacements_of team "u1" ["u2"]
       ∧ "u4" = UserID c
       ∧ ∀ c', c' ∈ replacements_of team "u1" ["u2"] →
           (count_of (counts_for ["u3"; "u4"]) (UserID c)
            ≤ count_of (counts_for ["u3"; "u4"]) (UserID c'))%Z.
Proof.
  apply (findReplacement_least_loaded team "u1" ["u2"] s0
           (counts_for ["u3"; "u4"]) "u4"
           (findReplacement team "u1" ["u2"] s0).2).
  - reflexivity.
  - intros c Hc. change (c ∈ [carol; dave]) in Hc.
    each_member Hc; vm_compute; discriminate.
  - reflexivity.
Defined.

Lemma assignReviewers_order_independent_witness :
  assignReviewers team "u1" s0 = assignReviewers (reverse team) "u1" s0.
Proof.
  apply (assignReviewers_order_independent team (reverse team) "u1" s0
           (counts_for ["u2"; "u3"; "u4"])).
  - symmetry. apply reverse_Permutation.
  - reflexivity.
  - reflexivity.
Defined.

Lemma CreatePullRequest_contract_witness :
  CreatePullRequest 200%Z "pr-1" "Again" "u1" s0
  = (Fail (ServiceError ErrPRExists "PR id already exists"), s0)
  ∧ CreatePullRequest 200%Z "pr-9" "New work" "u0" s0
    = (Fail (ServiceError ErrNotFound "author not found"), s0)
  ∧ ∃ author teamMembers,
      storage.PullRequestExists (repo s0) "pr-9" = Ok false
      ∧ storage.GetUser (repo s0) "u1" = Ok (Some author)
      ∧ storage.GetUsersByTeam (repo s0) (TeamName author) = Ok teamMembers
      ∧ pr9 = mkPullRequest "pr-9" "New work" "u1" StatusOpen
                (assignReviewers teamMembers "u1" s0).1 (Some 200%Z) None
      ∧ rng (CreatePullRequest 200%Z "pr-9" "New work" "u1" s0).2
        = rng (assignReviewers teamMembers "u1" s0).2
      ∧ storage.CreatePullRequest (repo s0) pr9
        = (None, repo (CreatePullRequest 200%Z "pr-9" "New work" "u1" s0).2).
Proof.
  split; [|split].
  - apply (CreatePullRequest_contract 200%Z "pr-1" "Again" "u1" s0).
    reflexivity.
  - apply (CreatePullRequest_contract 200%Z "pr-9" "New work" "u0" s0);
      reflexivity.
  - apply (CreatePullRequest_contract 200%Z "pr-9" "New work" "u1" s0).
    reflexivity.
Defined.

Lemma MergePullRequest_frame_witness :
  MergePullRequest 200%Z "pr-0" s0
  = (Fail (ServiceError ErrNotFound "PR not found"), s0)
  ∧ ∃ pr,
      storage.GetPullRequest (repo s0) "pr-1" = Ok (Some pr)
      ∧ PullRequestID pr1_merged = PullRequestID pr
      ∧ PullRequestName pr1_merged = PullRequestName pr
      ∧ AuthorID pr1_merged = AuthorID pr
      ∧ AssignedReviewers pr1_merged = AssignedReviewers pr
      ∧ CreatedAt pr1_merged = CreatedAt pr
      ∧ Status pr1_merged = StatusMerged
      ∧ rng s0_merged = rng s0
      ∧ (s0_merged = s0
         ∨ storage.UpdatePullRequest (repo s0) pr1_merged
           = (None, repo s0_merged)).
Proof.
  split.
  - apply (MergePullRequest_frame 200%Z "pr-0" s0). reflexivity.
  - apply (MergePullRequest_frame 200%Z "pr-1" s0). reflexivity.
Defined.

Lemma merge_then_reassign_witness :
  ReassignReviewer "pr-1" "u2" s0_merged
  = (Fail (ServiceError ErrPRMerged "cannot reassign on merged PR"),
     s0_merged).
Proof.
  apply (merge_then_reassign 200%Z "pr-1" "u2" s0 pr1_merged s0_merged);
    reflexivity.
Defined.

Lemma ReassignReviewer_replacement_witness :
  "u4" ≠ "u2"
  ∧ ∃ pr oldReviewer teamMembers m,
      storage.GetPullRequest (repo s0) "pr-1" = Ok (Some pr)
      ∧ Status pr ≠ StatusMerged
      ∧ storage.GetUser (repo s0) "u2" = Ok (Some oldReviewer)
      ∧ storage.GetUsersByTeam (repo s0) (TeamName oldReviewer)
        = Ok teamMembers
      ∧ m ∈ teamMembers ∧ IsActive m = true ∧ UserID m = "u4"
      ∧ "u4" ≠ AuthorID pr
      ∧ ("u4" ∉ AssignedReviewers pr)
      ∧ "u4" ∈ AssignedReviewers pr1_reassigned
      ∧ (NoDup (AssignedReviewers pr) →
         "u2" ∉ AssignedReviewers pr1_reassigned).
Proof.
  apply (ReassignReviewer_replacement "pr-1" "u2" s0 pr1_reassigned "u4"
           s0_reassigned).
  reflexivity.
Defined.

Lemma reassign_twice_witness :
  ReassignReviewer "pr-1" "u2" s0_reassigned
  = (Fail (ServiceError ErrNotAssigned
             "reviewer is not assigned to this PR"), s0_reassigned).
Proof.
  apply (reassign_twice "pr-1" "u2" s0 pr1 pr1_reassigned "u4"
           s0_reassigned); try reflexivity.
  apply (bool_decide_unpack _). vm_compute. exact I.
Defined.

Lemma randomSelection_contract_witness :
  (∃ picked s',
     randomSelection [bob; carol; dave] 2 s0 = (UserID <$> picked, s')
     ∧ repo s' = repo s0
     ∧ picked ⊆+ [bob; carol; dave]
     ∧ length picked = min 2 (length [bob; carol; dave]))
  ∧ randomSelection [bob; carol] 2 s0 = (UserID <$> [bob; carol], s0).
Proof.
  split.
  - apply (randomSelection_contract [bob; carol; dave] 2 s0).
  - apply (randomSelection_contract [bob; carol] 2 s0). simpl. lia.
Defined.

Lemma persistence_GetReviewCounts_contract_witness :
  persistence.GetReviewCounts db0 [] = Ok ∅
  ∧ persistence.GetReviewCounts db_nocounts ["u2"; "u5"]
    = Err (RepoError "GetReviewCounts")
  ∧ ∃ counts,
      persistence.GetReviewCounts db0 ["u2"; "u5"] = Ok counts
      ∧ (∀ id, id ∈ ["u2"; "u5"] →
           counts !! id = Some (Z.of_nat (open_reviews db0 id)))
      ∧ (∀ id c, counts !! id = Some c →
           c = Z.of_nat (open_reviews db0 id) ∧ (0 ≤ c)%Z).
Proof.
  split; [|split].
  - apply (persistence_GetReviewCounts_contract db0 []).
  - apply (persistence_GetReviewCounts_contract db_nocounts ["u2"; "u5"]).
    + discriminate.
    + by left.
  - apply (persistence_GetReviewCounts_contract db0 ["u2"; "u5"]).
    + discriminate.
    + apply not_elem_of_nil.
Defined.

Lemma findReplacement_fewest_open_reviews_witness :
  ∃ c, c ∈ replacements_of team "u1" ["u2"]
       ∧ "u4" = UserID c
       ∧ ∀ c', c' ∈ replacements_of team "u1" ["u2"] →
           open_reviews (repo s0) (UserID c)
           ≤ open_reviews (repo s0) (UserID c').
Proof.
  apply (findReplacement_fewest_open_reviews team "u1" ["u2"] s0 "u4"
           (findReplacement team "u1" ["u2"] s0).2).
  - apply not_elem_of_nil.
  - reflexivity.
Defined.


Lemma persistence_update_frame_witness :
  persistence.UpdatePullRequest db0 pr9 = (None, db0).
Proof.
  apply (persistence_update_frame db0 pr9).
  - intros Hin.
    change (PullRequestID pr9 ∈ ["pr-1"; "pr-2"; "pr-3"; "pr-4"; "pr-5"])
      in Hin.
    repeat (apply elem_of_cons in Hin as [E|Hin]; [discriminate E|]).
    by apply elem_of_nil in Hin.
  - apply not_elem_of_nil.
Defined.

Lemma ReassignReviewer_failure_answer_witness :
  (storage.GetPullRequest (repo s0) "pr-5" = Err noCandidate
   ∨ storage.GetUser (repo s0) "u7" = Err noCandidate
   ∨ (∃ oldReviewer,
        storage.GetUser (repo s0) "u7" = Ok (Some oldReviewer)
        ∧ storage.GetUsersByTeam (repo s0) (TeamName oldReviewer)
          = Err noCandidate)
   ∨ (∃ pr', (storage.UpdatePullRequest (repo s0) pr').1 = Some noCandidate))
  ∨ (∃ code msg,
       noCandidate = ServiceError code msg
       ∧ code ∈ [ErrNotFound; ErrPRMerged; ErrNotAssigned; ErrNoCandidate]
       ∧ handlers.handleServiceError noCandidate
         = handlers.writeError
             (if decide (code = ErrNotFound) then 404 else 409) code msg
       ∧ repo s0 = repo s0).
Proof.
  apply (ReassignReviewer_failure_answer "pr-5" "u7" s0 noCandidate s0).
  reflexivity.
Defined.

Lemma config_never_empty_witness :
  config.getEnv {["PORT" := ""]} "PORT" "8080"
  = config.getEnv (delete "PORT" {["PORT" := ""]}) "PORT" "8080"
  ∧ config.Port (config.Server (config.Load {["PORT" := ""]})) = "8080".
Proof.
  split.
  - apply (config_never_empty {["PORT" := ""]}). reflexivity.
  - reflexivity.
Defined.

End more_examples.

Section memory_examples.
Import service sample sample_teams.

#[local] Existing Instance memory.store.
#[local] Existing Instance memory.directory.

Lemma SetUserActive_contract_witness :
  team_service.SetUserActive "u0" false ms0
  = (Fail (ServiceError ErrNotFound "user not found"), ms0)
  ∧ ∃ stored,
      storage.GetUser (repo ms0) "u4" = Ok (Some stored)
      ∧ UserID dave_off = UserID stored
      ∧ Username dave_off = Username stored
      ∧ TeamName dave_off = TeamName stored
      ∧ IsActive dave_off = false
      ∧ rng (team_service.SetUserActive "u4" false ms0).2 = rng ms0
      ∧ team_storage.UpdateUser (repo ms0) dave_off
        = (None, repo (team_service.SetUserActive "u4" false ms0).2).
Proof.
  split.
  - apply (SetUserActive_contract "u0" false ms0). reflexivity.
  - apply (SetUserActive_contract "u4" false ms0). reflexivity.
Defined.

Lemma CreateTeam_contract_witness :
  team_service.CreateTeam (team.mkTeam "backend" []) ms0
  = (Fail (ServiceError ErrTeamExists "team_name already exists"), ms0)
  ∧ (team_storage.TeamExists (repo ms0) (team.TeamName platform) = Ok false
     ∧ team_storage.CreateTeam (repo ms0) platform
       = (None, repo (team_service.CreateTeam platform ms0).2)
     ∧ team_storage.GetTeam (repo (team_service.CreateTeam platform ms0).2)
         (team.TeamName platform)
       = Ok (Some platform)
     ∧ rng (team_service.CreateTeam platform ms0).2 = rng ms0)
  ∧ team_service.GetTeam "frontend" ms0
    = (Fail (ServiceError ErrNotFound "team not found"), ms0).
Proof.
  split; [|split].
  - apply (CreateTeam_contract (team.mkTeam "backend" []) ms0). reflexivity.
  - destruct (CreateTeam_contract platform ms0) as (_ & Hcreated & _).
    apply (Hcreated (Some platform) (team_service.CreateTeam platform ms0).2).
    reflexivity.
  - apply (CreateTeam_contract platform ms0). reflexivity.
Defined.

Lemma deactivated_user_not_assigned_witness :
  (∀ now prID prName authorID pr s2,
     CreatePullRequest now prID prName authorID
       (team_service.SetUserActive "u4" false ms0).2 = (Done pr, s2) →
     "u4" ∉ AssignedReviewers pr)
  ∧ (∀ prID oldReviewerID pr' newReviewerID s2,
       ReassignReviewer prID oldReviewerID
         (team_service.SetUserActive "u4" false ms0).2
         = (Done (pr', newReviewerID), s2) →
       newReviewerID ≠ "u4").
Proof.
  apply (deactivated_user_not_assigned "u4" ms0 dave_off).
  reflexivity.
Defined.



End memory_examples.

Section load_examples.
Import service sample.

Lemma CreatePullRequest_adds_load_witness :
  open_reviews (repo (CreatePullRequest 200%Z "pr-9" "New work" "u1" s0).2)
               "u4"
  = open_reviews (repo s0) "u4"
    + length (filter (λ r, r = "u4") (AssignedReviewers pr9)).
Proof.
  apply (CreatePullRequest_adds_load 200%Z "pr-9" "New work" "u1" s0 pr9
           (CreatePullRequest 200%Z "pr-9" "New work" "u1" s0).2 "u4").
  reflexivity.
Defined.

Lemma MergePullRequest_releases_load_witness :
  open_reviews (repo s0_merged) "u2"
  + length (filter (λ r, r = "u2") (AssignedReviewers pr1))
  = open_reviews (repo s0) "u2".
Proof.
  apply (MergePullRequest_releases_load 200%Z "pr-1" s0 pr1 pr1_merged
           s0_merged "u2"); try reflexivity.
  apply (bool_decide_unpack _). vm_compute. exact I.
Defined.

End load_examples.

Section round_trip_examples.
Import service sample sample_teams.
#[local] Existing Instance memory.store.
#[local] Existing Instance memory.directory.

Lemma ReassignReviewer_moves_load_witness :
  open_reviews (repo s0_reassigned) "u4"
  + (if decide ("u2" = "u4") then 1 else 0)
  = open_reviews (repo s0) "u4" + (if decide ("u4" = "u4") then 1 else 0).
Proof.
  apply (ReassignReviewer_moves_load "pr-1" "u2" s0 pr1 pr1_reassigned "u4"
           s0_reassigned "u4"); try reflexivity.
  apply (bool_decide_unpack _). vm_compute. exact I.
Defined.



End round_trip_examples.
